(** * aqua-scan-gate: image-reference resolution, registry-name lookup and
      request signing (package [aqua])

    A shallow embedding of
      - [pkg/aqua/client_test.go]: [normalizeHostname], [GetRegistryName] and
        the [ConvertImageRef] of [mockAquaClient] that carries the parsing
        logic (the file holds a second one that only delegates);
      - [pkg/aqua/auth.go]: [AuthConfig], [TokenManager], [SignRequest],
        [computeHMAC256] and [ValidateHMACSignature];
      - [cmd/main.go]: the loop of [main] that reads the excluded
        namespaces;
    together with the parts of the Go standard library these functions call
    ([strings], [fmt.Errorf], [net/http.Header], [time], [encoding/hex],
    [crypto/sha256], [crypto/hmac], [crypto/subtle]).

    Go strings are byte sequences: they are modelled by [string], whose
    characters are the 256 values of a byte.  Go [int] indices are modelled
    by [Z]; the indices computed here are bounded by the length of a string,
    so no wrap-around can occur. *)

From Stdlib Require Import ZArith Ascii.
From stdpp Require Import base option list strings gmap.

Local Open Scope Z_scope.

(** ** The Go [strings] package *)

Module GoStrings.

(** [len(s)] *)
Definition len (s : string) : Z := Z.of_nat (String.length s).

Fixpoint take_bytes (n : nat) (s : string) : string :=
  match n, s with
  | S n', String c s' => String c (take_bytes n' s')
  | _, _ => EmptyString
  end.

Fixpoint drop_bytes (n : nat) (s : string) : string :=
  match n, s with
  | S n', String _ s' => drop_bytes n' s'
  | _, _ => s
  end.

(** The slice expressions [s[:hi]] and [s[lo:]].  Go panics when the index
    is outside [0..len(s)]; every slice taken by the code below is in
    range (lemmas [LastIndex_range] and [Index_range]). *)
Definition slice_to (s : string) (hi : Z) : string := take_bytes (Z.to_nat hi) s.
Definition slice_from (s : string) (lo : Z) : string := drop_bytes (Z.to_nat lo) s.

(** [strings.HasPrefix(s, prefix)] *)
Fixpoint HasPrefix (s prefix : string) {struct prefix} : bool :=
  match prefix, s with
  | EmptyString, _ => true
  | String p prefix', String c s' =>
      if decide (c = p) then HasPrefix s' prefix' else false
  | String _ _, EmptyString => false
  end.

(** [strings.HasSuffix(s, suffix)] *)
Definition HasSuffix (s suffix : string) : bool :=
  bool_decide (String.length suffix ≤ String.length s)%nat
  && bool_decide (drop_bytes (String.length s - String.length suffix) s = suffix).

(** [strings.TrimPrefix(s, prefix)] *)
Definition TrimPrefix (s prefix : string) : string :=
  if HasPrefix s prefix then slice_from s (len prefix) else s.

Fixpoint index_nat (s substr : string) : option nat :=
  if HasPrefix s substr then Some 0%nat
  else match s with
       | EmptyString => None
       | String _ s' => S <$> index_nat s' substr
       end.

Fixpoint last_index_nat (s substr : string) : option nat :=
  match s with
  | EmptyString => if HasPrefix s substr then Some 0%nat else None
  | String _ s' =>
      match last_index_nat s' substr with
      | Some i => Some (S i)
      | None => if HasPrefix s substr then Some 0%nat else None
      end
  end.

Definition index_result (o : option nat) : Z :=
  match o with
  | Some i => Z.of_nat i
  | None => -1
  end.

(** [strings.Index(s, substr)]: the index of the first instance of
    [substr] in [s], or -1. *)
Definition Index (s substr : string) : Z := index_result (index_nat s substr).

(** [strings.LastIndex(s, substr)]: the index of the last instance of
    [substr] in [s], or -1. *)
Definition LastIndex (s substr : string) : Z :=
  index_result (last_index_nat s substr).

(** [strings.Contains(s, substr)] is [Index(s, substr) >= 0]. *)
Definition Contains (s substr : string) : bool := 0 <=? Index s substr.

(** [strings.Split(s, sep)] for a non-empty separator: the substrings
    between the (non-overlapping, leftmost first) instances of [sep].
    [skip] counts the bytes of a matched separator still to be passed. *)
Fixpoint split_go (sep : string) (skip : nat) (s : string) : list string :=
  match s with
  | EmptyString => [EmptyString]
  | String c s' =>
      match skip with
      | S k => split_go sep k s'
      | O =>
          if HasPrefix s sep
          then EmptyString :: split_go sep (String.length sep - 1) s'
          else match split_go sep 0 s' with
               | p :: ps => String c p :: ps
               | [] => [String c EmptyString]
               end
      end
  end.

Definition Split (s sep : string) : list string := split_go sep 0 s.

(** [strings.Join(elems, sep)] *)
Fixpoint Join (elems : list string) (sep : string) : string :=
  match elems with
  | [] => EmptyString
  | [e] => e
  | e :: rest => String.append e (String.append sep (Join rest sep))
  end.

(** ASCII lower-casing ([strings.ToLower] on ASCII text); the code never
    calls it, it serves to say what a case variant of a hostname is. *)
Definition lower_byte (c : ascii) : ascii :=
  let n := N_of_ascii c in
  if ((65 <=? n) && (n <=? 90))%N then ascii_of_N (n + 32) else c.

Fixpoint ToLower (s : string) : string :=
  match s with
  | EmptyString => EmptyString
  | String c s' => String (lower_byte c) (ToLower s')
  end.

End GoStrings.

Import GoStrings.

(** ** Errors ([fmt.Errorf])

    [fmt.Errorf] without a [%w] verb builds an error that only carries its
    message; with a [%w] verb it builds one that carries the formatted
    message and the wrapped error. *)

Inductive error : Type :=
  | errorString (s : string)
  | wrapError (msg : string) (err : error).

(** [err.Error()] *)
Definition Error (e : error) : string :=
  match e with
  | errorString s => s
  | wrapError msg _ => msg
  end.

(** [errors.Unwrap(err)] *)
Definition Unwrap (e : error) : option error :=
  match e with
  | errorString _ => None
  | wrapError _ err => Some err
  end.

#[global] Instance error_eq_dec : EqDecision error.
Proof. solve_decision. Defined.

(** ** [pkg/aqua/client_test.go] *)

(** [mockAquaClient].  The read/write lock [registryCacheMu] guards
    [registryCache]; in this sequential model a read under [RLock] is a
    plain read.  [registryCacheRefresh] is a time stamp (seconds). *)
Record mockAquaClient : Type := {
  registryCache : gmap string string;
  registryCacheRefresh : Z;
  refreshCalled : bool
}.

Definition normalizeHostname (hostname : string) : string :=
  let hostname := TrimPrefix hostname "https://" in
  let hostname := TrimPrefix hostname "http://" in
  hostname.

(** [GetRegistryName] returns the pair [(registryName, err)]; [None] is
    Go's [nil] error.  The [ctx] argument is not used by the code. *)
Definition GetRegistryName (m : mockAquaClient) (hostname : string)
  : string * option error :=
  let hostname := normalizeHostname hostname in
  match registryCache m !! hostname with
  | None => ("", Some (errorString ("registry not found in Aqua: " +:+ hostname)))
  | Some registryName => (registryName, None)
  end.

(** The first part of [ConvertImageRef] (up to the comment "Get the Aqua
    registry name for this hostname") follows the three steps the source
    marks with comments. *)

(** "Remove digest if present": the new value of [imageRef]. *)
Definition removeDigest (imageRef : string) : string :=
  if Contains imageRef "@" then
    let parts := Split imageRef "@" in
    parts !!! 0%nat
  else imageRef.

(** "Handle tag": the values of [tag], [imageRef] and [hasPort] after the
    step. *)
Definition handleTag (imageRef : string) : string * string * bool :=
  let tagIdx := LastIndex imageRef ":" in
  (* Check if the colon is part of a port number (e.g., registry.io:5000) *)
  if 0 <? tagIdx then
    let beforeColon := slice_to imageRef tagIdx in
    if Contains beforeColon "/" then
      (* Colon is after a slash, so it's a tag *)
      (slice_from imageRef (tagIdx + 1), slice_to imageRef tagIdx, false)
    else if Contains beforeColon "." then
      (* Colon is in the domain, so it's a port *)
      ("latest", imageRef, true)
    else
      (* Single name with colon, it's a tag *)
      (slice_from imageRef (tagIdx + 1), slice_to imageRef tagIdx, false)
  else ("latest", imageRef, false).

(** "Handle registry and repository": the values of [hostname] and
    [repository]. *)
Definition handleRegistry (imageRef : string) (hasPort : bool) : string * string :=
  let slashIdx := Index imageRef "/" in
  if 0 <? slashIdx then
    let registryPart := slice_to imageRef slashIdx in
    (* Check if it looks like a registry (has . or :) *)
    if Contains registryPart "." || (hasPort && Contains registryPart ":") then
      (registryPart, slice_from imageRef (slashIdx + 1))
    else
      (* It's a Docker Hub image with namespace (e.g., library/nginx) *)
      ("docker.io", imageRef)
  else
    (* No slash, it's a Docker Hub image *)
    ("docker.io", imageRef).

(** The local variables [hostname], [repository] and [tag] as they stand
    before the lookup. *)
Definition splitImageRef (imageRef : string) : string * string * string :=
  let imageRef := removeDigest imageRef in
  let '(tag, imageRef, hasPort) := handleTag imageRef in
  let '(hostname, repository) := handleRegistry imageRef hasPort in
  (hostname, repository, tag).

Definition ref_hostname (imageRef : string) : string := (splitImageRef imageRef).1.1.
Definition ref_repository (imageRef : string) : string := (splitImageRef imageRef).1.2.
Definition ref_tag (imageRef : string) : string := (splitImageRef imageRef).2.

(** [ConvertImageRef] returns [(registryName, imageName, tag, err)]. *)
Definition ConvertImageRef (m : mockAquaClient) (imageRef : string)
  : string * string * string * option error :=
  let originalRef := imageRef in
  let '(hostname, repository, tag) := splitImageRef imageRef in
  (* Get the Aqua registry name for this hostname *)
  match GetRegistryName m hostname with
  | (_, Some err) =>
      ("", "", "", Some (wrapError ("looking up registry name for " +:+ originalRef
                                     +:+ ": " +:+ Error err) err))
  | (registryName, None) => (registryName, repository, tag, None)
  end.

(** ** Bytes

    [[]byte(s)] and [string(b)] convert between a string and its bytes
    without changing them; a byte is an integer in [0, 256). *)

Definition byte_of (c : ascii) : Z := Z.of_N (N_of_ascii c).
Definition char_of (b : Z) : ascii := ascii_of_N (Z.to_N b).

Fixpoint bytes (s : string) : list Z :=
  match s with
  | EmptyString => []
  | String c s' => byte_of c :: bytes s'
  end.

Fixpoint string_of_bytes (b : list Z) : string :=
  match b with
  | [] => EmptyString
  | x :: b' => String (char_of x) (string_of_bytes b')
  end.

(** ** [crypto/sha256] (FIPS 180-4), on 32-bit words with wrap-around *)

Module SHA256.

Definition uint32 (x : Z) : Z := x mod 2 ^ 32.
Definition add32 (x y : Z) : Z := uint32 (x + y).
Definition rotr (n x : Z) : Z :=
  Z.lor (Z.shiftr x n) (uint32 (Z.shiftl x (32 - n))).
Definition not32 (x : Z) : Z := Z.lxor x (2 ^ 32 - 1).

Definition Ch (x y z : Z) : Z := Z.lxor (Z.land x y) (Z.land (not32 x) z).
Definition Maj (x y z : Z) : Z :=
  Z.lxor (Z.lxor (Z.land x y) (Z.land x z)) (Z.land y z).
Definition bsig0 (x : Z) : Z := Z.lxor (Z.lxor (rotr 2 x) (rotr 13 x)) (rotr 22 x).
Definition bsig1 (x : Z) : Z := Z.lxor (Z.lxor (rotr 6 x) (rotr 11 x)) (rotr 25 x).
Definition ssig0 (x : Z) : Z := Z.lxor (Z.lxor (rotr 7 x) (rotr 18 x)) (Z.shiftr x 3).
Definition ssig1 (x : Z) : Z := Z.lxor (Z.lxor (rotr 17 x) (rotr 19 x)) (Z.shiftr x 10).

(** The round constants are the first 32 bits of the fractional parts of
    the cube roots of the first 64 primes, the initial hash value those of
    the square roots of the first 8 primes. *)
Definition primes : list Z :=
  [2; 3; 5; 7; 11; 13; 17; 19; 23; 29; 31; 37; 41; 43; 47; 53; 59; 61; 67;
   71; 73; 79; 83; 89; 97; 101; 103; 107; 109; 113; 127; 131; 137; 139;
   149; 151; 157; 163; 167; 173; 179; 181; 191; 193; 197; 199; 211; 223;
   227; 229; 233; 239; 241; 251; 257; 263; 269; 271; 277; 281; 283; 293;
   307; 311].

Fixpoint root_go (k n : Z) (bits : nat) (r : Z) : Z :=
  match bits with
  | O => r
  | S b =>
      let r' := r + 2 ^ Z.of_nat b in
      if r' ^ k <=? n then root_go k n b r' else root_go k n b r
  end.

Definition frac_root (k p : Z) : Z :=
  uint32 (root_go k (p * 2 ^ (32 * k)) 40 0).

Definition K : list Z := Eval vm_compute in map (frac_root 3) primes.
Definition init : list Z := Eval vm_compute in map (frac_root 2) (firstn 8 primes).

Fixpoint be_bytes (count : nat) (n : Z) : list Z :=
  match count with
  | O => []
  | S c => (n / 256 ^ Z.of_nat c) mod 256 :: be_bytes c n
  end.

(** Padding: a 1 bit, zero bits up to 56 bytes modulo 64, then the length
    of the message in bits as a 64-bit big-endian integer. *)
Definition pad (msg : list Z) : list Z :=
  let l := Z.of_nat (length msg) in
  msg ++ [128] ++ repeat 0 (Z.to_nat ((55 - l) mod 64)) ++ be_bytes 8 (8 * l).

Fixpoint words (bs : list Z) : list Z :=
  match bs with
  | a :: b :: c :: d :: rest =>
      (a * 2 ^ 24 + b * 2 ^ 16 + c * 2 ^ 8 + d) :: words rest
  | _ => []
  end.

Fixpoint chunks (fuel : nat) (ws : list Z) : list (list Z) :=
  match fuel, ws with
  | S f, _ :: _ => firstn 16 ws :: chunks f (skipn 16 ws)
  | _, _ => []
  end.

(** The message schedule, newest word first while it is extended. *)
Fixpoint extend (n : nat) (wrev : list Z) : list Z :=
  match n with
  | O => wrev
  | S n' =>
      let w := add32 (add32 (ssig1 (nth 1 wrev 0)) (nth 6 wrev 0))
                     (add32 (ssig0 (nth 14 wrev 0)) (nth 15 wrev 0)) in
      extend n' (w :: wrev)
  end.

Definition schedule (block : list Z) : list Z := rev (extend 48 (rev block)).

Definition round (st : list Z) (kw : Z * Z) : list Z :=
  match st with
  | [a; b; c; d; e; f; g; h] =>
      let t1 := add32 (add32 (add32 h (bsig1 e)) (add32 (Ch e f g) kw.1)) kw.2 in
      let t2 := add32 (bsig0 a) (Maj a b c) in
      [add32 t1 t2; a; b; c; add32 d t1; e; f; g]
  | _ => st
  end.

Definition compress (h : list Z) (block : list Z) : list Z :=
  zip_with add32 h (fold_left round (zip K (schedule block)) h).

(** [sha256.Sum256] *)
Definition Sum256 (msg : list Z) : list Z :=
  let ws := words (pad msg) in
  concat (map (be_bytes 4) (fold_left compress (chunks (length ws) ws) init)).

Definition BlockSize : nat := 64.

End SHA256.

(** ** [crypto/hmac] (RFC 2104) over SHA-256, and [crypto/subtle] *)

Module HMAC.

(** [hmac.New(sha256.New, key)], [Write(msg)], [Sum(nil)] *)
Definition Sum (key msg : list Z) : list Z :=
  let key := if (SHA256.BlockSize <? length key)%nat then SHA256.Sum256 key else key in
  let key := key ++ repeat 0 (SHA256.BlockSize - length key) in
  let ipad := map (Z.lxor 54) key in
  let opad := map (Z.lxor 92) key in
  SHA256.Sum256 (opad ++ SHA256.Sum256 (ipad ++ msg)).

(** [subtle.ConstantTimeByteEq(x, y)]: [int((uint32(x^y) - 1) >> 31)] *)
Definition ConstantTimeByteEq (x y : Z) : Z :=
  Z.shiftr ((Z.lxor x y - 1) mod 2 ^ 32) 31.

(** One turn of the loop of [ConstantTimeCompare]: [v |= x[i] ^ y[i]]. *)
Definition or_xor (v : Z) (xy : Z * Z) : Z := Z.lor v (Z.lxor xy.1 xy.2).

(** [subtle.ConstantTimeCompare(x, y)]: 0 when the lengths differ;
    otherwise the differences of all the bytes are or-ed into [v]. *)
Definition ConstantTimeCompare (x y : list Z) : Z :=
  if decide (length x = length y) then
    let v := fold_left or_xor (zip x y) 0 in
    ConstantTimeByteEq v 0
  else 0.

(** [hmac.Equal(mac1, mac2)] *)
Definition Equal (mac1 mac2 : list Z) : bool :=
  bool_decide (ConstantTimeCompare mac1 mac2 = 1).

End HMAC.

(** ** [encoding/hex] *)

Definition hextable : string := "0123456789abcdef".

Definition hex_digit (n : Z) : ascii :=
  match String.get (Z.to_nat n) hextable with
  | Some c => c
  | None => "0"%char
  end.

(** [hex.EncodeToString(src)] *)
Fixpoint EncodeToString (src : list Z) : string :=
  match src with
  | [] => EmptyString
  | v :: src' =>
      String (hex_digit (Z.shiftr v 4))
        (String (hex_digit (Z.land v 15)) (EncodeToString src'))
  end.

(** ** [time]: an instant as its calendar fields in UTC *)

Record Time : Type := {
  Year : Z; Month : Z; Day : Z;
  Hour : Z; Minute : Z; Second : Z
}.

(** [n] in decimal on exactly [width] digits, zero padded. *)
Fixpoint digits (width : nat) (n : Z) : string :=
  match width with
  | O => EmptyString
  | S w => digits w (n / 10) +:+ String (char_of (48 + n mod 10)) EmptyString
  end.

(** [t.UTC().Format(time.RFC3339)], layout [2006-01-02T15:04:05Z07:00],
    for a year in 0..9999: the zone of a UTC time is printed as [Z]. *)
Definition FormatRFC3339 (t : Time) : string :=
  digits 4 (Year t) +:+ "-" +:+ digits 2 (Month t) +:+ "-" +:+ digits 2 (Day t)
  +:+ "T" +:+ digits 2 (Hour t) +:+ ":" +:+ digits 2 (Minute t) +:+ ":"
  +:+ digits 2 (Second t) +:+ "Z".

(** ** [net/http]: the parts of a request that [SignRequest] touches *)

(** [textproto.CanonicalMIMEHeaderKey]: the first letter and every letter
    after a hyphen in upper case, the others in lower case; a key with a
    byte that is not a token character is left as it is. *)
Definition is_upper (c : ascii) : bool :=
  let n := byte_of c in (65 <=? n) && (n <=? 90).
Definition is_lower (c : ascii) : bool :=
  let n := byte_of c in (97 <=? n) && (n <=? 122).
Definition is_digit (c : ascii) : bool :=
  let n := byte_of c in (48 <=? n) && (n <=? 57).

Definition upper_byte (c : ascii) : ascii :=
  if is_lower c then char_of (byte_of c - 32) else c.

Definition validHeaderFieldByte (c : ascii) : bool :=
  is_upper c || is_lower c || is_digit c
  || bool_decide (c ∈ String.list_ascii_of_string "!#$%&'*+-.^_`|~").

Fixpoint all_bytes (p : ascii → bool) (s : string) : bool :=
  match s with
  | EmptyString => true
  | String c s' => p c && all_bytes p s'
  end.

Fixpoint canonical_go (upper : bool) (s : string) : string :=
  match s with
  | EmptyString => EmptyString
  | String c s' =>
      String (if upper then upper_byte c else lower_byte c)
             (canonical_go (bool_decide (c = "-"%char)) s')
  end.

Definition CanonicalMIMEHeaderKey (s : string) : string :=
  if all_bytes validHeaderFieldByte s then canonical_go true s else s.

(** [http.Header] is a [map[string][]string]. *)
Record Request : Type := {
  Method : string;
  (** the text [req.URL.String()] returns *)
  URL : string;
  Header : gmap string (list string)
}.

(** [req.Header.Set(key, value)]: the request is shared through a pointer
    and updated in place; here the updated request is returned. *)
Definition Header_Set (req : Request) (key value : string) : Request :=
  {| Method := Method req; URL := URL req;
     Header := <[CanonicalMIMEHeaderKey key := [value]]> (Header req) |}.

(** [req.Header.Get(key)] *)
Definition Header_Get (req : Request) (key : string) : string :=
  match Header req !! CanonicalMIMEHeaderKey key with
  | Some (v :: _) => v
  | _ => ""
  end.

(** ** [pkg/aqua/auth.go] *)

Record AuthConfig : Type := {
  Token : string;
  HMACSecret : string
}.

Record TokenManager : Type := {
  config : AuthConfig
}.

(** [baseURL] and [httpClient] are not used by the code. *)
Definition NewTokenManager (baseURL : string) (cfg : AuthConfig) : TokenManager :=
  {| config := cfg |}.

Definition GetToken (tm : TokenManager) : string := Token (config tm).

Definition newline : string := String (ascii_of_nat 10) EmptyString.

Definition computeHMAC256 (message secret : string) : string :=
  EncodeToString (HMAC.Sum (bytes secret) (bytes message)).

(** [SignRequest]: [now] is the instant [time.Now()] returns, read once;
    the result is the request after the call and the returned error. *)
Definition SignRequest (tm : TokenManager) (now : Time) (req : Request)
    (body : string) : Request * option error :=
  if decide (HMACSecret (config tm) = "") then (req, None) (* No signing configured *)
  else
    let timestamp := FormatRFC3339 now in
    (* Build the string to sign *)
    let stringToSign :=
      Method req +:+ newline +:+ URL req +:+ newline +:+ timestamp
      +:+ newline +:+ body in
    (* Compute HMAC256 signature *)
    let signature := computeHMAC256 stringToSign (HMACSecret (config tm)) in
    (* Add signature headers *)
    let req := Header_Set req "X-Aqua-Timestamp" timestamp in
    let req := Header_Set req "X-Aqua-Signature" signature in
    (req, None).

Definition ValidateHMACSignature (message signature secret : string) : bool :=
  let expectedSig := computeHMAC256 message secret in
  HMAC.Equal (bytes signature) (bytes expectedSig).

(** ** [cmd/main.go]: the excluded namespaces *)

(** [strings.TrimSpace] scans ASCII bytes itself and hands a string with a
    byte of a multi-byte character ([>= utf8.RuneSelf]) at the scanned
    position to [TrimFunc] and [TrimRightFunc] with [unicode.IsSpace]; these
    two, which decode UTF-8, are parameters here. *)

Section TrimSpace.

Variable TrimFunc_IsSpace : string → string.
Variable TrimRightFunc_IsSpace : string → string.

Definition RuneSelf : Z := 128.

(** [asciiSpace[c] == 1]: tab, line feed, vertical tab, form feed, carriage
    return and space. *)
Definition asciiSpace (c : ascii) : bool := Ascii.is_space c.

(** The second loop of [TrimSpace], on the reverse [r] of [s[start:stop]]:
    [stop] goes down while the last byte is an ASCII space. *)
Fixpoint TrimSpace_stop (r : string) : string :=
  match r with
  | EmptyString => EmptyString
  | String c r' =>
      if RuneSelf <=? byte_of c then TrimRightFunc_IsSpace (String.rev r)
      else if asciiSpace c then TrimSpace_stop r'
      else String.rev r
  end.

(** The first loop, on [s[start:]]: [start] goes up while the first byte is
    an ASCII space. *)
Fixpoint TrimSpace_start (s : string) : string :=
  match s with
  | EmptyString => EmptyString
  | String c s' =>
      if RuneSelf <=? byte_of c then TrimFunc_IsSpace s
      else if asciiSpace c then TrimSpace_start s'
      else TrimSpace_stop (String.rev s)
  end.

(** [strings.TrimSpace(s)] *)
Definition TrimSpace (s : string) : string := TrimSpace_start s.

(** One turn of the loop of [main] over the comma-separated names. *)
Definition excludeNamespace (excludedNS : gmap string bool) (ns : string)
  : gmap string bool :=
  let ns := TrimSpace ns in
  if decide (ns = "") then excludedNS else <[ns := true]> excludedNS.

(** "Parse excluded namespaces" in [main]: the map [excludedNS] after the
    loop, for the value [excludedNamespaces] of the flag. *)
Definition excludedNS (excludedNamespaces : string) : gmap string bool :=
  fold_left excludeNamespace (Split excludedNamespaces ",") ∅.

End TrimSpace.

(** ** Vocabulary of the properties *)

(** The reference contains no [":"] after its last ["/"]; for a reference
    with no ["/"], [LastIndex] is -1 and the whole reference is inspected. *)
Definition noColonAfterLastSlash (ref : string) : bool :=
  negb (Contains (slice_from ref (LastIndex ref "/" + 1)) ":").

(** The last [":"] of [w] stands at a positive index, after a text with a
    ["."] and without ["/"]: the case the code reads as [host:port]. *)
Definition lastColonIsPort (w : string) : bool :=
  let i := LastIndex w ":" in
  (0 <? i) && negb (Contains (slice_to w i) "/") && Contains (slice_to w i) ".".

(** The error [GetRegistryName] builds for a hostname absent from the table. *)
Definition notFound (hostname : string) : error :=
  errorString ("registry not found in Aqua: " +:+ hostname).

(** The error [ConvertImageRef] builds around a failed lookup. *)
Definition lookupFailed (originalRef : string) (err : error) : error :=
  wrapError ("looking up registry name for " +:+ originalRef +:+ ": " +:+ Error err) err.

(** A client whose table is [cache]. *)
Definition clientOf (cache : gmap string string) : mockAquaClient :=
  {| registryCache := cache; registryCacheRefresh := 0; refreshCalled := false |}.

(** A sample signer, instant and request. *)
Definition sampleManager : TokenManager :=
  NewTokenManager "https://aqua.example" {| Token := "token"; HMACSecret := "Jefe" |}.

Definition unsignedManager : TokenManager :=
  NewTokenManager "https://aqua.example" {| Token := "token"; HMACSecret := "" |}.

Definition sampleTime : Time :=
  {| Year := 2024; Month := 3; Day := 9; Hour := 7; Minute := 5; Second := 0 |}.

Definition sampleRequest : Request :=
  {| Method := "POST"; URL := "https://aqua.example/api/v2/images";
     Header := {[ "Content-Type" := ["application/json"] ]} |}.

(** The client [m] with one more entry in its table. *)
Definition withEntry (m : mockAquaClient) (key name : string) : mockAquaClient :=
  {| registryCache := <[key := name]> (registryCache m);
     registryCacheRefresh := registryCacheRefresh m;
     refreshCalled := refreshCalled m |}.

(** The value of [stringToSign] in [SignRequest]. *)
Definition signedMessage (now : Time) (req : Request) (body : string) : string :=
  Method req +:+ newline +:+ URL req +:+ newline +:+ FormatRFC3339 now
  +:+ newline +:+ body.

(** The digits [hex.EncodeToString] writes. *)
Definition is_lower_hex (c : ascii) : bool :=
  let n := byte_of c in ((48 <=? n) && (n <=? 57)) || ((97 <=? n) && (n <=? 102)).

(** A byte that both loops of [TrimSpace] stop at. *)
Definition is_plain (c : ascii) : bool :=
  (byte_of c <? 128) && negb (Ascii.is_space c).

(** A namespace as it is written in the flag: no comma, and a first and a
    last byte that are ASCII and not spaces. *)
Definition is_name (ns : string) : bool :=
  negb (Contains ns ",")
  && match ns, String.rev ns with
     | String a _, String b _ => is_plain a && is_plain b
     | _, _ => false
     end.

(** The rows of [TestConvertImageRef] and [TestConvertImageRef_EdgeCases]:
    the reference, the table, and the expected registry, image and tag, or
    [None] where an error is expected. *)
Definition testRows : list (string * list (string * string) * option (string * string * string)) :=
[
  ("docker.io/library/python:3.12.12", [("docker.io", "Docker Hub")],
   Some ("Docker Hub", "library/python", "3.12.12"));
  ("library/nginx:latest", [("docker.io", "Docker Hub")],
   Some ("Docker Hub", "library/nginx", "latest"));
  ("nginx", [("docker.io", "Docker Hub")],
   Some ("Docker Hub", "nginx", "latest"));
  ("nginx:1.21.0", [("docker.io", "Docker Hub")],
   Some ("Docker Hub", "nginx", "1.21.0"));
  ("gcr.io/project/image:v1.0.0", [("gcr.io", "GCR")],
   Some ("GCR", "project/image", "v1.0.0"));
  ("registry.io:5000/team/project/image:tag", [("registry.io:5000", "Custom Registry")],
   Some ("Custom Registry", "team/project/image", "tag"));
  ("registry.io:5000/image", [("registry.io:5000", "Custom Registry")],
   Some ("Custom Registry", "image", "latest"));
  ("docker.io/library/alpine@sha256:abcd1234", [("docker.io", "Docker Hub")],
   Some ("Docker Hub", "library/alpine", "latest"));
  ("gcr.io/project/image:v1.0@sha256:abcd1234", [("gcr.io", "GCR")],
   Some ("GCR", "project/image", "v1.0"));
  ("registry.io/team/project/subproject/image:tag", [("registry.io", "Custom Registry")],
   Some ("Custom Registry", "team/project/subproject/image", "tag"));
  ("docker.io/library/app:v1.2.3-alpha.1", [("docker.io", "Docker Hub")],
   Some ("Docker Hub", "library/app", "v1.2.3-alpha.1"));
  ("123456789012.dkr.ecr.us-east-1.amazonaws.com/myapp:latest", [("123456789012.dkr.ecr.us-east-1.amazonaws.com", "AWS ECR")],
   Some ("AWS ECR", "myapp", "latest"));
  ("myregistry.azurecr.io/samples/nginx:latest", [("myregistry.azurecr.io", "Azure ACR")],
   Some ("Azure ACR", "samples/nginx", "latest"));
  ("gcr.io/project/image", [("gcr.io", "GCR")],
   Some ("GCR", "project/image", "latest"));
  ("ubuntu", [("docker.io", "Docker Hub")],
   Some ("Docker Hub", "ubuntu", "latest"));
  ("quay.io/prometheus/prometheus:v2.30.0", [("quay.io", "Quay")],
   Some ("Quay", "prometheus/prometheus", "v2.30.0"));
  ("docker.io/my_org/my-app_v2:1.0.0-rc1", [("docker.io", "Docker Hub")],
   Some ("Docker Hub", "my_org/my-app_v2", "1.0.0-rc1"));
  ("eu.gcr.io/project-id/image:tag", [("eu.gcr.io", "GCR EU")],
   Some ("GCR EU", "project-id/image", "tag"));
  ("docker.io/library/app:sha-abcd1234", [("docker.io", "Docker Hub")],
   Some ("Docker Hub", "library/app", "sha-abcd1234"));
  ("my-registry.io/app:v1", [("my-registry.io", "My Registry")],
   Some ("My Registry", "app", "v1"));
  ("nginx:latest", [],
   None);
  ("gcr.io/a/b/c/d/e/image:tag", [("gcr.io", "GCR")],
   Some ("GCR", "a/b/c/d/e/image", "tag"));
  ("docker.io/app:12345", [("docker.io", "Docker Hub")],
   Some ("Docker Hub", "app", "12345"));
  ("docker.io/app:v1.0_beta-rc.1+build.123", [("docker.io", "Docker Hub")],
   Some ("Docker Hub", "app", "v1.0_beta-rc.1+build.123"))
].

(** What a test checks of a row. *)
Definition rowPasses
    (row : string * list (string * string) * option (string * string * string)) : bool :=
  let '(imageRef, cache, want) := row in
  let '(gotRegistry, gotImage, gotTag, err) :=
    ConvertImageRef (clientOf (list_to_map cache)) imageRef in
  match want, err with
  | None, Some _ => true
  | Some (wantRegistry, wantImage, wantTag), None =>
      bool_decide (gotRegistry = wantRegistry) && bool_decide (gotImage = wantImage)
      && bool_decide (gotTag = wantTag)
  | _, _ => false
  end.

(** The values of a byte. *)
Definition is_byte (b : Z) : Prop := 0 ≤ b < 256.

(** A byte of a string, [None] past its end. *)
Definition byteAt (s : string) (i : nat) : option ascii := String.get i s.

(** * Properties *)

(** ** Facts about the [strings] functions *)

Section StringFacts.

Implicit Types (s a b sub : string) (c : ascii) (i n : nat).

Lemma append_cons c a b : String c a +:+ b = String c (a +:+ b).
Proof. reflexivity. Qed.

Lemma append_empty_l a : "" +:+ a = a.
Proof. reflexivity. Qed.

Lemma append_empty_r a : a +:+ "" = a.
Proof. induction a as [|c a IH]; [done|]. by rewrite append_cons, IH. Qed.

Lemma append_assoc a b s : (a +:+ b) +:+ s = a +:+ (b +:+ s).
Proof. induction a as [|c a IH]; [done|]. by rewrite !append_cons, IH. Qed.

Lemma length_append a b :
  String.length (a +:+ b) = (String.length a + String.length b)%nat.
Proof. induction a as [|c a IH]; [done|]. rewrite append_cons. simpl. by rewrite IH. Qed.

Lemma take_bytes_0 s : take_bytes 0 s = "".
Proof. by destruct s. Qed.

Lemma drop_bytes_0 s : drop_bytes 0 s = s.
Proof. by destruct s. Qed.

Lemma take_drop_bytes n s : take_bytes n s +:+ drop_bytes n s = s.
Proof.
  revert s. induction n as [|n IH]; intros [|c s]; simpl; try done.
  by rewrite append_cons, IH.
Qed.

Lemma take_bytes_app a b : take_bytes (String.length a) (a +:+ b) = a.
Proof.
  induction a as [|c a IH]; [by rewrite append_empty_l, take_bytes_0|].
  rewrite append_cons. simpl. by rewrite IH.
Qed.

Lemma drop_bytes_app a b : drop_bytes (String.length a) (a +:+ b) = b.
Proof.
  induction a as [|c a IH]; [by rewrite append_empty_l, drop_bytes_0|].
  by rewrite append_cons.
Qed.

Lemma length_take_bytes n s : String.length (take_bytes n s) = (n `min` String.length s)%nat.
Proof. revert s. induction n as [|n IH]; intros [|c s]; simpl; auto. Qed.

(** *** [HasPrefix] and [HasSuffix] *)

Lemma HasPrefix_app sub b : HasPrefix (sub +:+ b) sub = true.
Proof.
  induction sub as [|c sub IH]; [done|].
  rewrite append_cons. simpl. by rewrite decide_True.
Qed.

Lemma HasPrefix_inv s sub :
  HasPrefix s sub = true → s = sub +:+ drop_bytes (String.length sub) s.
Proof.
  revert s. induction sub as [|c sub IH]; intros [|d s]; simpl; try done.
  case_decide as Hc; [|done]. intros Hp. subst d. rewrite append_cons. f_equal. auto.
Qed.

Lemma HasPrefix_true s sub : HasPrefix s sub = true ↔ ∃ b, s = sub +:+ b.
Proof.
  split.
  - intros H. eexists. by apply HasPrefix_inv.
  - intros [b ->]. apply HasPrefix_app.
Qed.

Lemma HasPrefix_empty s : HasPrefix s "" = true.
Proof. by destruct s. Qed.

Lemma HasSuffix_true s sub : HasSuffix s sub = true ↔ ∃ a, s = a +:+ sub.
Proof.
  unfold HasSuffix. rewrite andb_true_iff, !bool_decide_eq_true. split.
  - intros [Hle Hd]. set (k := (String.length s - String.length sub)%nat) in *.
    exists (take_bytes k s). rewrite <- Hd. by rewrite take_drop_bytes.
  - intros [a ->]. rewrite length_append. split; [lia|].
    replace (String.length a + String.length sub - String.length sub)%nat
      with (String.length a) by lia.
    apply drop_bytes_app.
Qed.

(** *** [Index], [LastIndex] and [Contains] *)

Lemma index_nat_unfold s sub :
  index_nat s sub =
    if HasPrefix s sub then Some 0%nat
    else match s with
         | EmptyString => None
         | String _ s' => S <$> index_nat s' sub
         end.
Proof. by destruct s. Qed.

Lemma index_nat_Some s sub i :
  index_nat s sub = Some i →
  s = take_bytes i s +:+ sub +:+ drop_bytes (i + String.length sub) s.
Proof.
  revert i. induction s as [|c s IH]; intros i; rewrite index_nat_unfold.
  - destruct (HasPrefix "" sub) eqn:Hp; [|done]. intros [= <-].
    by apply HasPrefix_inv in Hp.
  - destruct (HasPrefix (String c s) sub) eqn:Hp.
    + intros [= <-]. by apply HasPrefix_inv in Hp.
    + destruct (index_nat s sub) as [j|] eqn:Hj; [|done]. intros [= <-].
      simpl. rewrite append_cons. f_equal. by apply IH.
Qed.

Lemma index_nat_None s sub a b : index_nat s sub = None → s ≠ a +:+ sub +:+ b.
Proof.
  revert a. induction s as [|c s IH]; intros a; rewrite index_nat_unfold.
  - destruct (HasPrefix "" sub) eqn:Hp; [done|]. intros _ Heq.
    destruct a; [|done]. rewrite append_empty_l in Heq.
    rewrite Heq, HasPrefix_app in Hp. done.
  - destruct (HasPrefix (String c s) sub) eqn:Hp; [done|].
    destruct (index_nat s sub) eqn:Hj; [done|]. intros _ Heq.
    destruct a as [|d a].
    + rewrite append_empty_l in Heq. rewrite Heq, HasPrefix_app in Hp. done.
    + rewrite append_cons in Heq. injection Heq as _ Heq. by eapply IH.
Qed.

Lemma Contains_index s sub : Contains s sub = true ↔ is_Some (index_nat s sub).
Proof.
  unfold Contains, Index. destruct (index_nat s sub) as [i|]; simpl.
  - split; [eauto|]. intros _. apply Z.leb_le. lia.
  - split; [done|]. by intros [? ?].
Qed.

(** [Contains] holds exactly when the string decomposes around an instance
    of [sub]. *)
Lemma Contains_true s sub : Contains s sub = true ↔ ∃ a b, s = a +:+ sub +:+ b.
Proof.
  rewrite Contains_index. split.
  - intros [i Hi]. apply index_nat_Some in Hi. eauto.
  - intros (a & b & Heq). destruct (index_nat s sub) eqn:Hi; [eauto|].
    by eapply index_nat_None in Hi.
Qed.

Lemma Contains_false s sub :
  Contains s sub = false ↔ ∀ a b, s ≠ a +:+ sub +:+ b.
Proof.
  rewrite <- not_true_iff_false, Contains_true. split.
  - intros H a b Heq. apply H. eauto.
  - intros H (a & b & Heq). by eapply H.
Qed.

Lemma Index_neg s sub : Contains s sub = false → Index s sub = -1.
Proof.
  intros H. unfold Index. destruct (index_nat s sub) eqn:Hi; [|done].
  assert (Contains s sub = true) by (apply Contains_index; eauto). congruence.
Qed.

Lemma last_index_nat_None s sub :
  last_index_nat s sub = None ↔ index_nat s sub = None.
Proof.
  induction s as [|c s IH]; rewrite index_nat_unfold; simpl last_index_nat.
  - by destruct (HasPrefix "" sub).
  - destruct (last_index_nat s sub), (index_nat s sub),
      (HasPrefix (String c s) sub); simpl; try done;
      try (destruct IH as [IH1 IH2]; first [by specialize (IH1 eq_refl) | by specialize (IH2 eq_refl)]).
Qed.

Lemma LastIndex_neg s sub : Contains s sub = false → LastIndex s sub = -1.
Proof.
  intros H. unfold LastIndex. destruct (last_index_nat s sub) eqn:Hi; [|done].
  assert (Contains s sub = true); [|congruence].
  apply Contains_index. destruct (index_nat s sub) eqn:Hj; [eauto|].
  apply last_index_nat_None in Hj. congruence.
Qed.

Lemma last_index_nat_Some s sub i :
  last_index_nat s sub = Some i →
  s = take_bytes i s +:+ sub +:+ drop_bytes (i + String.length sub) s.
Proof.
  revert i. induction s as [|c s IH]; intros i; simpl last_index_nat.
  - destruct (HasPrefix "" sub) eqn:Hp; [|done]. intros [= <-].
    by apply HasPrefix_inv in Hp.
  - destruct (last_index_nat s sub) as [j|] eqn:Hj.
    + intros [= <-]. simpl. rewrite append_cons. f_equal. by apply IH.
    + destruct (HasPrefix (String c s) sub) eqn:Hp; [|done]. intros [= <-].
      by apply HasPrefix_inv in Hp.
Qed.

Lemma HasPrefix_length s sub :
  HasPrefix s sub = true → (String.length sub ≤ String.length s)%nat.
Proof. intros [b ->]%HasPrefix_true. rewrite length_append. lia. Qed.

Lemma index_nat_bound s sub i :
  index_nat s sub = Some i → (i + String.length sub ≤ String.length s)%nat.
Proof.
  revert i. induction s as [|c s IH]; intros i; rewrite index_nat_unfold.
  - destruct (HasPrefix "" sub) eqn:Hp; [|done]. intros [= <-].
    by apply HasPrefix_length in Hp.
  - destruct (HasPrefix (String c s) sub) eqn:Hp.
    + intros [= <-]. by apply HasPrefix_length in Hp.
    + destruct (index_nat s sub) as [j|] eqn:Hj; [|done]. intros [= <-].
      specialize (IH j eq_refl). simpl. lia.
Qed.

Lemma last_index_nat_bound s sub i :
  last_index_nat s sub = Some i → (i + String.length sub ≤ String.length s)%nat.
Proof.
  revert i. induction s as [|c s IH]; intros i; simpl last_index_nat.
  - destruct (HasPrefix "" sub) eqn:Hp; [|done]. intros [= <-].
    by apply HasPrefix_length in Hp.
  - destruct (last_index_nat s sub) as [j|] eqn:Hj.
    + intros [= <-]. specialize (IH j eq_refl). simpl. lia.
    + destruct (HasPrefix (String c s) sub) eqn:Hp; [|done]. intros [= <-].
      by apply HasPrefix_length in Hp.
Qed.

(** No instance of [sub] starts after the one [LastIndex] finds. *)
Lemma last_index_nat_last s sub i j :
  last_index_nat s sub = Some i → (i < j)%nat → HasPrefix (drop_bytes j s) sub = false
  ∨ (String.length s < j)%nat.
Proof.
  revert i j. induction s as [|c s IH]; intros i j; simpl last_index_nat.
  - intros _ Hj. right. simpl. lia.
  - destruct (last_index_nat s sub) as [k|] eqn:Hk.
    + intros [= <-] Hj. destruct j as [|j]; [lia|]. simpl.
      destruct (IH k j eq_refl) as [?|?]; [lia|auto|right; lia].
    + destruct (HasPrefix (String c s) sub) eqn:Hp; [|done]. intros [= <-] Hj.
      destruct j as [|j]; [lia|]. simpl.
      destruct (HasPrefix (drop_bytes j s) sub) eqn:Hd; [|auto].
      apply last_index_nat_None in Hk.
      exfalso. eapply (index_nat_None s sub (take_bytes j s)); [done|].
      apply HasPrefix_inv in Hd. rewrite <- Hd. by rewrite take_drop_bytes.
Qed.

(** The slices taken at an index found by [Index] or [LastIndex] are in
    range, and the string is the text before the instance, the instance
    and the text after it. *)
Lemma Index_range s sub :
  0 ≤ Index s sub → Index s sub + len sub ≤ len s
  ∧ s = slice_to s (Index s sub) +:+ sub +:+ slice_from s (Index s sub + len sub).
Proof.
  unfold Index, slice_to, slice_from, len.
  destruct (index_nat s sub) as [i|] eqn:Hi; simpl; [|lia]. intros _.
  pose proof (index_nat_bound _ _ _ Hi). apply index_nat_Some in Hi.
  replace (Z.to_nat (Z.of_nat i + Z.of_nat (String.length sub)))
    with (i + String.length sub)%nat by lia.
  rewrite Nat2Z.id. split; [lia|done].
Qed.

Lemma LastIndex_range s sub :
  0 ≤ LastIndex s sub → LastIndex s sub + len sub ≤ len s
  ∧ s = slice_to s (LastIndex s sub) +:+ sub
        +:+ slice_from s (LastIndex s sub + len sub).
Proof.
  unfold LastIndex, slice_to, slice_from, len.
  destruct (last_index_nat s sub) as [i|] eqn:Hi; simpl; [|lia]. intros _.
  pose proof (last_index_nat_bound _ _ _ Hi). apply last_index_nat_Some in Hi.
  replace (Z.to_nat (Z.of_nat i + Z.of_nat (String.length sub)))
    with (i + String.length sub)%nat by lia.
  rewrite Nat2Z.id. split; [lia|done].
Qed.

Lemma Contains_app_l a b sub : Contains a sub = true → Contains (a +:+ b) sub = true.
Proof.
  rewrite !Contains_true. intros (x & y & ->). exists x, (y +:+ b).
  by rewrite !append_assoc.
Qed.

Lemma Contains_app_r a b sub : Contains b sub = true → Contains (a +:+ b) sub = true.
Proof.
  rewrite !Contains_true. intros (x & y & ->). exists (a +:+ x), y.
  by rewrite !append_assoc.
Qed.

Lemma Contains_take_bytes n s sub : Contains s sub = false → Contains (take_bytes n s) sub = false.
Proof.
  intros H. destruct (Contains (take_bytes n s) sub) eqn:Ht; [|done].
  rewrite <- (take_drop_bytes n s) in H. by rewrite Contains_app_l in H.
Qed.

Lemma Contains_drop_bytes n s sub : Contains s sub = false → Contains (drop_bytes n s) sub = false.
Proof.
  intros H. destruct (Contains (drop_bytes n s) sub) eqn:Ht; [|done].
  rewrite <- (take_drop_bytes n s) in H. by rewrite Contains_app_r in H.
Qed.

(** *** Instances of a single byte in a concatenation *)

Lemma Contains_byte_app a b c :
  Contains (a +:+ b) (String c "") = true →
  Contains a (String c "") = true ∨ Contains b (String c "") = true.
Proof.
  induction a as [|d a IH]; [by right|]. rewrite append_cons.
  rewrite !Contains_index in *. rewrite !(index_nat_unfold (String d _)).
  simpl HasPrefix. case_decide as Hd; [left; eauto|].
  destruct (index_nat (a +:+ b) (String c "")) eqn:Hab; [|by intros [? ?]].
  intros _. destruct IH as [[i Hi]|IH]; [eauto| |by right].
  left. rewrite Hi. simpl. eauto.
Qed.

Lemma Contains_byte_app_false a b c :
  Contains a (String c "") = false → Contains b (String c "") = false →
  Contains (a +:+ b) (String c "") = false.
Proof.
  intros Ha Hb. destruct (Contains (a +:+ b) (String c "")) eqn:H; [|done].
  apply Contains_byte_app in H as [H|H]; congruence.
Qed.

(** The first instance of a byte absent from [a] in [a ++ c ++ b]. *)
Lemma Index_byte_app a b c :
  Contains a (String c "") = false →
  Index (a +:+ String c "" +:+ b) (String c "") = len a.
Proof.
  intros Ha. unfold Index, len.
  assert (index_nat (a +:+ String c "" +:+ b) (String c "") = Some (String.length a))
    as ->; [|done].
  induction a as [|d a IH].
  - rewrite append_empty_l, index_nat_unfold. simpl. by rewrite decide_True.
  - rewrite append_cons, index_nat_unfold. simpl HasPrefix.
    pose proof (proj1 (Contains_false _ _) Ha) as Ha'.
    case_decide as Hd.
    { subst d. exfalso. by apply (Ha' "" a). }
    rewrite IH; [done|]. apply Contains_false. intros x y ->.
    by apply (Ha' (String d x) y).
Qed.

(** The last instance of a byte absent from [b] in [a ++ c ++ b]. *)
Lemma LastIndex_byte_app a b c :
  Contains b (String c "") = false →
  LastIndex (a +:+ String c "" +:+ b) (String c "") = len a.
Proof.
  intros Hb. unfold LastIndex, len.
  assert (last_index_nat (a +:+ String c "" +:+ b) (String c "")
          = Some (String.length a)) as ->; [|done].
  induction a as [|d a IH].
  - rewrite append_empty_l. change (String c "" +:+ b) with (String c b).
    simpl last_index_nat.
    assert (last_index_nat b (String c "") = None) as ->.
    { apply last_index_nat_None. destruct (index_nat b (String c "")) eqn:Hi; [|done].
      assert (Contains b (String c "") = true) by (apply Contains_index; eauto).
      congruence. }
    by rewrite decide_True.
  - rewrite append_cons. simpl last_index_nat. by rewrite IH.
Qed.

(** *** Bytes at a position *)

Lemma get_append_length a c b : String.get (String.length a) (a +:+ String c b) = Some c.
Proof. induction a as [|d a IH]; [done|]. by rewrite append_cons. Qed.

Lemma get_drop_bytes n k s : String.get k (drop_bytes n s) = String.get (n + k) s.
Proof.
  revert s. by induction n as [|n IH]; intros [|c s]; simpl.
Qed.

Lemma get_split k s c :
  String.get k s = Some c →
  s = take_bytes k s +:+ String c "" +:+ drop_bytes (S k) s.
Proof.
  revert k. induction s as [|d s IH]; intros [|k] H; simplify_eq/=.
  - done.
  - rewrite append_cons. f_equal. by apply IH.
Qed.

Lemma get_Contains k s c : String.get k s = Some c → Contains s (String c "") = true.
Proof. intros H. apply Contains_true. apply get_split in H. eauto. Qed.

Lemma last_index_nat_get s c i :
  last_index_nat s (String c "") = Some i → String.get i s = Some c.
Proof.
  intros H. pose proof (last_index_nat_bound _ _ _ H) as Hb.
  apply last_index_nat_Some in H. rewrite H.
  rewrite <- (get_append_length (take_bytes i s) c (drop_bytes (i + 1) s)).
  f_equal. rewrite length_take_bytes. simpl in Hb. lia.
Qed.

(** *** [Split] *)

Lemma split_go_nonempty sep n s : split_go sep n s ≠ [].
Proof.
  revert n. induction s as [|c s IH]; intros n; simpl; [done|].
  destruct n; [|done].
  destruct (HasPrefix (String c s) sep); [done|].
  by destruct (split_go sep 0 s).
Qed.

End StringFacts.

(** ** The reference parser *)

Section Parser.

Implicit Types (ref w d : string) (m : mockAquaClient).

Lemma split_head_char c s :
  Split s (String c "") !!! 0%nat =
    match index_nat s (String c "") with
    | Some i => take_bytes i s
    | None => s
    end.
Proof.
  unfold Split. induction s as [|d s IH]; [done|].
  rewrite index_nat_unfold. simpl split_go. simpl HasPrefix.
  case_decide as Hd; [done|].
  pose proof (split_go_nonempty (String c "") 0 s) as Hne.
  destruct (split_go (String c "") 0 s) as [|p ps]; [done|].
  simpl in IH. destruct (index_nat s (String c "")); simpl; by rewrite IH.
Qed.

(** The digest is cut at the first ["@"]. *)
Lemma removeDigest_app w d :
  Contains w "@" = false → removeDigest (w +:+ "@" +:+ d) = w.
Proof.
  intros Hw. unfold removeDigest.
  assert (Contains (w +:+ "@" +:+ d) "@" = true) as -> by (apply Contains_true; eauto).
  cbv zeta. rewrite split_head_char.
  assert (index_nat (w +:+ "@" +:+ d) "@" = Some (String.length w)) as ->;
    [|apply take_bytes_app].
  clear -Hw. induction w as [|c w IH].
  - by rewrite append_empty_l, index_nat_unfold.
  - rewrite append_cons, index_nat_unfold. simpl HasPrefix.
    pose proof (proj1 (Contains_false _ _) Hw) as Hw'.
    case_decide as Hc.
    { subst c. exfalso. by apply (Hw' "" w). }
    rewrite IH; [done|]. apply Contains_false. intros a b ->.
    by apply (Hw' (String c a) b).
Qed.

Lemma removeDigest_id ref : Contains ref "@" = false → removeDigest ref = ref.
Proof. intros H. unfold removeDigest. by rewrite H. Qed.

(** The working reference is a prefix of the input. *)
Lemma removeDigest_prefix ref : ∃ d, ref = removeDigest ref +:+ d.
Proof.
  unfold removeDigest. destruct (Contains ref "@").
  - cbv zeta. rewrite split_head_char. destruct (index_nat ref "@").
    + eexists. symmetry. apply take_drop_bytes.
    + exists "". by rewrite append_empty_r.
  - exists "". by rewrite append_empty_r.
Qed.

(** [ConvertImageRef] in terms of the parts found by the parser and of the
    table, for a hostname with no scheme prefix. *)
Lemma ConvertImageRef_split m ref host repo tag :
  splitImageRef ref = (host, repo, tag) →
  normalizeHostname host = host →
  ConvertImageRef m ref =
    match registryCache m !! host with
    | Some registryName => (registryName, repo, tag, None)
    | None => ("", "", "", Some (lookupFailed ref (notFound host)))
    end.
Proof.
  intros Hs Hn. unfold ConvertImageRef, GetRegistryName. rewrite Hs, Hn.
  by destruct (registryCache m !! host).
Qed.

Lemma ref_tag_handleTag ref : ref_tag ref = (handleTag (removeDigest ref)).1.1.
Proof.
  unfold ref_tag, splitImageRef.
  destruct (handleTag (removeDigest ref)) as [[tag w'] hasPort].
  by destruct (handleRegistry w' hasPort).
Qed.

Lemma ref_repository_handleRegistry ref :
  ref_repository ref =
    (handleRegistry (handleTag (removeDigest ref)).1.2 (handleTag (removeDigest ref)).2).2.
Proof.
  unfold ref_repository, splitImageRef.
  destruct (handleTag (removeDigest ref)) as [[tag w'] hasPort]. simpl.
  by destruct (handleRegistry w' hasPort).
Qed.

(** The tag step keeps the reference or truncates it at its last colon. *)
Lemma handleTag_ref w :
  (handleTag w).1.2 = w
  ∨ (0 < LastIndex w ":" ∧ (handleTag w).1.2 = slice_to w (LastIndex w ":")).
Proof.
  unfold handleTag. destruct (0 <? LastIndex w ":") eqn:Hi; [|by left].
  apply Z.ltb_lt in Hi.
  destruct (Contains (slice_to w (LastIndex w ":")) "/"); [by right|].
  destruct (Contains (slice_to w (LastIndex w ":")) "."); [by left|by right].
Qed.

(** The host step returns the reference or what follows its first slash. *)
Lemma handleRegistry_repository w hasPort :
  (handleRegistry w hasPort).2 = w
  ∨ (0 < Index w "/" ∧ (handleRegistry w hasPort).2 = slice_from w (Index w "/" + 1)).
Proof.
  unfold handleRegistry. destruct (0 <? Index w "/") eqn:Hi; [|by left].
  apply Z.ltb_lt in Hi.
  destruct (_ || _); [by right|by left].
Qed.

(** Truncating at the last colon keeps a reference free of empty path
    components. *)
Lemma truncation_no_empty_component w :
  HasPrefix w "/" = false → Contains w "//" = false → Contains w "/:" = false →
  0 ≤ LastIndex w ":" →
  HasPrefix (slice_to w (LastIndex w ":")) "/" = false
  ∧ HasSuffix (slice_to w (LastIndex w ":")) "/" = false
  ∧ Contains (slice_to w (LastIndex w ":")) "//" = false.
Proof.
  intros Hp Hd Hc Hi. destruct (LastIndex_range w ":" Hi) as [_ Hw].
  set (x := slice_to w (LastIndex w ":")) in *.
  set (y := slice_from w _) in *.
  split; [|split].
  - destruct (HasPrefix x "/") eqn:Hx; [|done].
    apply HasPrefix_true in Hx as [b Hx]. rewrite Hx, append_assoc in Hw.
    rewrite Hw, HasPrefix_app in Hp. done.
  - destruct (HasSuffix x "/") eqn:Hx; [|done].
    apply HasSuffix_true in Hx as [a Hx].
    assert (Contains w "/:" = true); [|congruence].
    apply Contains_true. exists a, y. by rewrite Hw, Hx, append_assoc.
  - by apply Contains_take_bytes.
Qed.

(** The slices the parser takes are within the bounds of the reference, and
    [parts[0]] exists: the code does not panic. *)
Lemma parser_slices_in_range w :
  Split w "@" ≠ []
  ∧ (0 < LastIndex w ":" → LastIndex w ":" + 1 ≤ len w)
  ∧ (0 < Index w "/" → Index w "/" + 1 ≤ len w).
Proof.
  split; [apply split_go_nonempty|]. split; intros H.
  - by destruct (LastIndex_range w ":") as [? _]; [lia|].
  - by destruct (Index_range w "/") as [? _]; [lia|].
Qed.

(** In a reference with no [":"] after its last ["/"], a ["/"] follows the
    last [":"]. *)
Lemma slash_after_last_colon ref :
  noColonAfterLastSlash ref = true → 0 ≤ LastIndex ref ":" →
  Contains (slice_from ref (LastIndex ref ":" + 1)) "/" = true.
Proof.
  unfold noColonAfterLastSlash, LastIndex, slice_from. intros HA%negb_true_iff Hi.
  destruct (last_index_nat ref ":") as [i|] eqn:Hc; simpl in *; [|lia].
  apply last_index_nat_get in Hc.
  destruct (last_index_nat ref "/") as [j|] eqn:Hs; simpl in *.
  - apply last_index_nat_get in Hs.
  replace (Z.to_nat (Z.of_nat j + 1)) with (S j) in HA by lia.
  replace (Z.to_nat (Z.of_nat i + 1)) with (S i) by lia.
  destruct (decide (i = j)) as [->|Hne]; [congruence|].
  destruct (decide (i < j)%nat) as [Hlt|Hge].
  + apply (get_Contains (j - S i)). rewrite get_drop_bytes.
    by replace (S i + (j - S i))%nat with j by lia.
  + assert (Contains (drop_bytes (S j) ref) ":" = true); [|congruence].
    apply (get_Contains (i - S j)). rewrite get_drop_bytes.
    by replace (S j + (i - S j))%nat with i by lia.
  - apply get_Contains in Hc. congruence.
Qed.

(** A reference with no [":"] at all has the tag ["latest"]. *)
Lemma tag_latest_no_colon ref : Contains ref ":" = false → ref_tag ref = "latest".
Proof.
  intros Hc. rewrite ref_tag_handleTag. unfold handleTag.
  rewrite LastIndex_neg; [done|].
  destruct (removeDigest_prefix ref) as [d Hd].
  destruct (Contains (removeDigest ref) ":") eqn:Hw; [|done].
  rewrite Hd in Hc. by rewrite Contains_app_l in Hc.
Qed.

(** X12: a dotted host with a port, a path and no tag: the colon is read as
    the port separator, the host keeps its port and the tag is ["latest"]. *)
Lemma host_port_without_tag host port path :
  Contains host "." = true →
  Contains host "/" = false → Contains host "@" = false →
  Contains port "/" = false → Contains port "@" = false → Contains port ":" = false →
  Contains path "@" = false → Contains path ":" = false →
  splitImageRef (host +:+ ":" +:+ port +:+ "/" +:+ path)
  = (host +:+ ":" +:+ port, path, "latest").
Proof.
  intros Hdot Hhs Hha Hps Hpa Hpc Hta Htc.
  set (w := host +:+ ":" +:+ port +:+ "/" +:+ path).
  assert (0 < len host) as Hlen.
  { unfold len. destruct host; [done|simpl; lia]. }
  assert (handleTag w = ("latest", w, true)) as Ht.
  { unfold handleTag, w. rewrite LastIndex_byte_app
      by (by apply Contains_byte_app_false; [|apply Contains_byte_app_false]).
    rewrite (proj2 (Z.ltb_lt 0 _) Hlen).
    unfold slice_to, len. rewrite Nat2Z.id, take_bytes_app. by rewrite Hhs, Hdot. }
  set (hp := host +:+ ":" +:+ port).
  assert (w = hp +:+ "/" +:+ path) as Hw by (unfold w, hp; by rewrite !append_assoc).
  assert (Contains hp "/" = false) as Hhp
    by (by repeat apply Contains_byte_app_false).
  assert (handleRegistry w true = (hp, path)) as Hr.
  { unfold handleRegistry. rewrite Hw, Index_byte_app by done.
    assert (0 < len hp) as Hlen'.
    { unfold len, hp in *. rewrite length_append. lia. }
    rewrite (proj2 (Z.ltb_lt 0 _) Hlen').
    unfold slice_to, slice_from, len. rewrite Nat2Z.id, take_bytes_app.
    replace (Z.to_nat (Z.of_nat (String.length hp) + 1))
      with (String.length (hp +:+ "/")) by (rewrite length_append; simpl; lia).
    rewrite <- (append_assoc hp "/" path), drop_bytes_app.
    unfold hp at 1. by rewrite (Contains_app_l host). }
  unfold splitImageRef. rewrite removeDigest_id.
  2:{ unfold w. by repeat apply Contains_byte_app_false. }
  fold w. by rewrite Ht, Hr.
Qed.

End Parser.

(** C1: for ["registry.io:5000/a/b:tag"] the last colon (index 20) has a
    ["/"] before it, so the tag step takes ["tag"] and truncates the
    reference without setting [hasPort]; the host step then finds host
    ["registry.io:5000"] and repository ["a/b"], and [ConvertImageRef]
    returns the name stored for that host with repository ["a/b"] and tag
    ["tag"]. *)
Theorem C1_port_and_path_tag :
  LastIndex "registry.io:5000/a/b:tag" ":" = 20
  ∧ Contains (slice_to "registry.io:5000/a/b:tag" 20) "/" = true
  ∧ handleTag (removeDigest "registry.io:5000/a/b:tag")
    = ("tag", "registry.io:5000/a/b", false)
  ∧ splitImageRef "registry.io:5000/a/b:tag" = ("registry.io:5000", "a/b", "tag")
  ∧ ∀ m, ConvertImageRef m "registry.io:5000/a/b:tag" =
      match registryCache m !! "registry.io:5000" with
      | Some registryName => (registryName, "a/b", "tag", None)
      | None => ("", "", "", Some (lookupFailed "registry.io:5000/a/b:tag"
                                     (notFound "registry.io:5000")))
      end.
Proof.
  repeat split; try reflexivity.
  intros m. by apply ConvertImageRef_split.
Qed.

(** C7: for ["gcr.io/project/image:v1.0@sha256:abcd1234"] the reference is
    cut at the first ["@"], whatever follows it plays no part in the tag, and
    the result is host ["gcr.io"], repository ["project/image"], tag
    ["v1.0"]. *)
Theorem C7_tag_and_digest :
  removeDigest "gcr.io/project/image:v1.0@sha256:abcd1234" = "gcr.io/project/image:v1.0"
  ∧ splitImageRef "gcr.io/project/image:v1.0@sha256:abcd1234"
    = ("gcr.io", "project/image", "v1.0")
  ∧ (∀ digest, splitImageRef ("gcr.io/project/image:v1.0@" +:+ digest)
               = ("gcr.io", "project/image", "v1.0"))
  ∧ ∀ m, ConvertImageRef m "gcr.io/project/image:v1.0@sha256:abcd1234" =
      match registryCache m !! "gcr.io" with
      | Some registryName => (registryName, "project/image", "v1.0", None)
      | None => ("", "", "", Some (lookupFailed "gcr.io/project/image:v1.0@sha256:abcd1234"
                                     (notFound "gcr.io")))
      end.
Proof.
  split; [reflexivity|]. split; [reflexivity|]. split.
  - intros digest. unfold splitImageRef.
    change ("gcr.io/project/image:v1.0@" +:+ digest)
      with ("gcr.io/project/image:v1.0" +:+ "@" +:+ digest).
    by rewrite removeDigest_app.
  - intros m. by apply ConvertImageRef_split.
Qed.




(** X11: the condition on the last colon cannot be weakened: a reference
    with no ["@"] and no [":"] after its last ["/"] whose tag is ["latest"]
    has no [":"] at a positive index, or has a ["."] and no ["/"] before its
    last [":"]. *)
Lemma tag_latest_only_if (ref : string) :
  Contains ref "@" = false →
  noColonAfterLastSlash ref = true →
  ref_tag ref = "latest" →
  LastIndex ref ":" ≤ 0 ∨ lastColonIsPort ref = true.
Proof.
  intros Hat HA Htag. rewrite ref_tag_handleTag, removeDigest_id in Htag by done.
  unfold handleTag in Htag. unfold lastColonIsPort.
  destruct (0 <? LastIndex ref ":") eqn:Hi; [right|left; by apply Z.ltb_ge].
  apply Z.ltb_lt in Hi.
  pose proof (slash_after_last_colon ref HA ltac:(lia)) as Hslash.
  destruct (Contains (slice_to ref (LastIndex ref ":")) "/"); simpl in *.
  { by rewrite Htag in Hslash. }
  destruct (Contains (slice_to ref (LastIndex ref ":")) "."); simpl in *; [done|].
  by rewrite Htag in Hslash.
Qed.

(** C3, counterexample: the repository of ["/foo"] is ["/foo"], and that of
    ["gcr.io/a/"] is ["a/"]. *)
Lemma C3_counterexample :
  ref_repository "/foo" = "/foo"
  ∧ HasPrefix (ref_repository "/foo") "/" = true
  ∧ ref_repository "gcr.io/a/" = "a/"
  ∧ HasSuffix (ref_repository "gcr.io/a/") "/" = true.
Proof. by repeat split. Qed.

(** References with an empty path component whose repository begins or ends
    with a slash. *)
Example repository_slash_examples :
  ref_repository "gcr.io//a" = "/a"
  ∧ ref_repository "gcr.io/a/:tag" = "a/"
  ∧ ref_repository "library/nginx/" = "library/nginx/".
Proof. by repeat split. Qed.

(** C3, amended: for every reference whose part before the first ["@"]
    neither begins nor ends with ["/"] and contains neither ["//"] nor
    ["/:"], the repository neither begins nor ends with ["/"]. *)
Theorem C3_repository_slashes (ref : string) :
  HasPrefix (removeDigest ref) "/" = false →
  HasSuffix (removeDigest ref) "/" = false →
  Contains (removeDigest ref) "//" = false →
  Contains (removeDigest ref) "/:" = false →
  HasPrefix (ref_repository ref) "/" = false
  ∧ HasSuffix (ref_repository ref) "/" = false.
Proof.
  intros Hp Hs Hd Hc. rewrite ref_repository_handleRegistry.
  set (w := removeDigest ref) in *.
  assert (HasPrefix (handleTag w).1.2 "/" = false
          ∧ HasSuffix (handleTag w).1.2 "/" = false
          ∧ Contains (handleTag w).1.2 "//" = false) as (Hp' & Hs' & Hd').
  { destruct (handleTag_ref w) as [->|[Hi ->]]; [done|].
    apply truncation_no_empty_component; auto with lia. }
  set (w' := (handleTag w).1.2) in *.
  destruct (handleRegistry_repository w' (handleTag w).2) as [->|[Hi ->]]; [done|].
  destruct (Index_range w' "/") as [_ Hw']; [lia|].
  change (len "/") with 1 in Hw'.
  set (host := slice_to w' (Index w' "/")) in *.
  set (repo := slice_from w' (Index w' "/" + 1)) in *.
  split.
  - destruct (HasPrefix repo "/") eqn:Hx; [|done].
    apply HasPrefix_true in Hx as [b Hx].
    assert (Contains w' "//" = true); [|congruence].
    apply Contains_true. exists host, b. by rewrite Hw', Hx.
  - destruct (HasSuffix repo "/") eqn:Hx; [|done].
    apply HasSuffix_true in Hx as [a Hx].
    assert (HasSuffix w' "/" = true); [|congruence].
    apply HasSuffix_true. exists (host +:+ "/" +:+ a).
    by rewrite Hw', Hx, !append_assoc.
Qed.

(** C3, witness: a reference with a port, a path and a tag. *)
Lemma C3_repository_slashes_witness :
  HasPrefix (ref_repository "registry.io:5000/team/project/image:tag") "/" = false
  ∧ HasSuffix (ref_repository "registry.io:5000/team/project/image:tag") "/" = false.
Proof.
  apply (C3_repository_slashes "registry.io:5000/team/project/image:tag"); reflexivity.
Defined.

(** C10, counterexample: ["app.v2:tag@sha256:abcd"] has no ["/"], and a
    ["."] before its last [":"], yet its repository is ["app.v2:tag"], not
    the whole input. *)
Lemma C10_counterexample :
  Contains "app.v2:tag@sha256:abcd" "/" = false
  ∧ 0 ≤ LastIndex "app.v2:tag@sha256:abcd" ":"
  ∧ Contains (slice_to "app.v2:tag@sha256:abcd" (LastIndex "app.v2:tag@sha256:abcd" ":")) "." = true
  ∧ ref_repository "app.v2:tag@sha256:abcd" = "app.v2:tag"
  ∧ ref_repository "app.v2:tag@sha256:abcd" ≠ "app.v2:tag@sha256:abcd".
Proof. by repeat split. Qed.

(** C10, amended: for every reference with neither ["/"] nor ["@"] that has
    a [":"] and a ["."] in the text before its last [":"], the colon is read
    as a port separator ([hasPort] is set): the tag is ["latest"], the host
    is ["docker.io"] and the repository is the whole input. *)
Theorem C10_dotted_name_with_colon (ref : string) :
  Contains ref "/" = false →
  Contains ref "@" = false →
  0 ≤ LastIndex ref ":" →
  Contains (slice_to ref (LastIndex ref ":")) "." = true →
  handleTag (removeDigest ref) = ("latest", ref, true)
  ∧ splitImageRef ref = ("docker.io", ref, "latest").
Proof.
  intros Hs Hat Hi Hd.
  assert (handleTag ref = ("latest", ref, true)) as Ht.
  { unfold handleTag.
    assert (0 < LastIndex ref ":") as Hpos.
    { destruct (decide (LastIndex ref ":" = 0)) as [H0|]; [|lia].
      rewrite H0 in Hd. unfold slice_to in Hd. by rewrite take_bytes_0 in Hd. }
    rewrite (proj2 (Z.ltb_lt 0 _) Hpos), Hd.
    unfold slice_to. by rewrite Contains_take_bytes. }
  unfold splitImageRef. rewrite removeDigest_id by done. rewrite Ht. split; [done|].
  unfold handleRegistry. by rewrite Index_neg.
Qed.

(** C10, witness: ["app.v2:tag"]. *)
Lemma C10_dotted_name_with_colon_witness :
  handleTag (removeDigest "app.v2:tag") = ("latest", "app.v2:tag", true)
  ∧ splitImageRef "app.v2:tag" = ("docker.io", "app.v2:tag", "latest").
Proof. apply (C10_dotted_name_with_colon "app.v2:tag"); by vm_compute. Defined.

(** ** Registry-name lookup *)

Section Lookup.

Implicit Types (m : mockAquaClient) (h hostname : string).

Lemma TrimPrefix_app sub b : TrimPrefix (sub +:+ b) sub = b.
Proof.
  unfold TrimPrefix, slice_from, len. rewrite HasPrefix_app, Nat2Z.id.
  apply drop_bytes_app.
Qed.

Lemma TrimPrefix_id s sub : HasPrefix s sub = false → TrimPrefix s sub = s.
Proof. intros H. unfold TrimPrefix. by rewrite H. Qed.

(** A text that starts with ["http://"] does not start with ["https://"]. *)
Lemma HasPrefix_http_https h : HasPrefix ("http://" +:+ h) "https://" = false.
Proof. reflexivity. Qed.

Lemma normalizeHostname_http h : normalizeHostname ("http://" +:+ h) = h.
Proof.
  unfold normalizeHostname.
  rewrite (TrimPrefix_id _ "https://") by apply HasPrefix_http_https.
  apply TrimPrefix_app.
Qed.

Lemma normalizeHostname_https h :
  normalizeHostname ("https://" +:+ h) = TrimPrefix h "http://".
Proof. unfold normalizeHostname. by rewrite TrimPrefix_app. Qed.

Lemma normalizeHostname_id h :
  HasPrefix h "http://" = false → HasPrefix h "https://" = false →
  normalizeHostname h = h.
Proof.
  intros H1 H2. unfold normalizeHostname.
  rewrite (TrimPrefix_id h "https://") by done. by apply TrimPrefix_id.
Qed.

(** The lookup in terms of the table. *)
Lemma GetRegistryName_lookup m hostname :
  GetRegistryName m hostname =
    match registryCache m !! normalizeHostname hostname with
    | Some registryName => (registryName, None)
    | None => ("", Some (notFound (normalizeHostname hostname)))
    end.
Proof. unfold GetRegistryName. by destruct (_ !! _). Qed.

End Lookup.

(** C4, counterexample: with ["gcr.io"] in the table, the case variant
    ["GCR.IO"] of that hostname is not found, while ["gcr.io"] and its
    normalized form are. *)
Lemma C4_counterexample :
  ToLower "GCR.IO" = ToLower "gcr.io"
  ∧ GetRegistryName (clientOf {[ "gcr.io" := "GCR" ]}) (normalizeHostname "gcr.io")
    = ("GCR", None)
  ∧ GetRegistryName (clientOf {[ "gcr.io" := "GCR" ]}) "GCR.IO"
    = ("", Some (notFound "GCR.IO"))
  ∧ GetRegistryName (clientOf {[ "gcr.io" := "GCR" ]}) "GCR.IO"
    ≠ GetRegistryName (clientOf {[ "gcr.io" := "GCR" ]}) (normalizeHostname "gcr.io").
Proof. by repeat split. Qed.

(** A hostname that carries a scheme prefix of its own is normalized once:
    its second prefix stays in the key. *)
Example normalizeHostname_once :
  normalizeHostname "https://https://gcr.io" = "https://gcr.io"
  ∧ normalizeHostname (normalizeHostname "https://https://gcr.io") = "gcr.io"
  ∧ GetRegistryName (clientOf {[ "gcr.io" := "GCR" ]}) "https://https://gcr.io"
    ≠ GetRegistryName (clientOf {[ "gcr.io" := "GCR" ]})
        (normalizeHostname "https://https://gcr.io").
Proof. by repeat split. Qed.

(** C4, amended: for every hostname [h] that does not itself begin with
    ["http://"] or ["https://"] and every table, looking up [h],
    ["http://" + h] and ["https://" + h] gives the result of looking up the
    normalized form of [h], which is [h]; the key is compared byte for byte,
    so a case variant of [h] is another key. *)
Theorem C4_scheme_prefixes_collide (m : mockAquaClient) (h : string) :
  HasPrefix h "http://" = false →
  HasPrefix h "https://" = false →
  normalizeHostname h = h
  ∧ GetRegistryName m h = GetRegistryName m (normalizeHostname h)
  ∧ GetRegistryName m ("http://" +:+ h) = GetRegistryName m (normalizeHostname h)
  ∧ GetRegistryName m ("https://" +:+ h) = GetRegistryName m (normalizeHostname h)
  ∧ GetRegistryName m h =
      match registryCache m !! h with
      | Some registryName => (registryName, None)
      | None => ("", Some (notFound h))
      end.
Proof.
  intros H1 H2. pose proof (normalizeHostname_id h H1 H2) as Hn.
  rewrite !GetRegistryName_lookup, normalizeHostname_http, normalizeHostname_https.
  rewrite (TrimPrefix_id h) by done. by rewrite !Hn.
Qed.

(** C4, witness: ["gcr.io"] and ["https://gcr.io"]. *)
Lemma C4_scheme_prefixes_collide_witness :
  GetRegistryName (clientOf {[ "gcr.io" := "GCR" ]}) "https://gcr.io"
  = GetRegistryName (clientOf {[ "gcr.io" := "GCR" ]}) (normalizeHostname "gcr.io").
Proof.
  apply (C4_scheme_prefixes_collide (clientOf {[ "gcr.io" := "GCR" ]}) "gcr.io");
    reflexivity.
Defined.

(** C8: on an empty table the lookup fails with the not-found error for
    every hostname; on any table it fails with that error exactly when the
    normalized hostname is absent, and returns the stored name otherwise.
    With an empty table [ConvertImageRef] fails for every reference. *)
Theorem C8_lookup_not_found (m : mockAquaClient) (hostname : string) :
  (registryCache m = ∅ →
     GetRegistryName m hostname = ("", Some (notFound (normalizeHostname hostname))))
  ∧ (registryCache m !! normalizeHostname hostname = None ↔
     GetRegistryName m hostname = ("", Some (notFound (normalizeHostname hostname))))
  ∧ (registryCache m !! normalizeHostname hostname = None ↔
     (GetRegistryName m hostname).2 ≠ None)
  ∧ (∀ registryName,
       registryCache m !! normalizeHostname hostname = Some registryName →
       GetRegistryName m hostname = (registryName, None))
  ∧ (registryCache m = ∅ →
     ∀ imageRef, ∃ err,
       ConvertImageRef m imageRef = ("", "", "", Some (lookupFailed imageRef err))).
Proof.
  rewrite GetRegistryName_lookup. repeat split.
  - intros ->. by rewrite lookup_empty.
  - by intros ->.
  - by destruct (_ !! _).
  - by intros ->.
  - by destruct (_ !! _).
  - by intros ? ->.
  - intros Hm imageRef. unfold ConvertImageRef.
    destruct (splitImageRef imageRef) as [[host repo] tag].
    rewrite GetRegistryName_lookup, Hm, lookup_empty. eauto.
Qed.

(** C8, witness: the empty table and a table with one entry. *)
Lemma C8_lookup_not_found_witness :
  GetRegistryName (clientOf ∅) "nginx" = ("", Some (notFound "nginx"))
  ∧ GetRegistryName (clientOf {[ "gcr.io" := "GCR" ]}) "https://gcr.io" = ("GCR", None).
Proof.
  split.
  - apply (C8_lookup_not_found (clientOf ∅) "nginx"). reflexivity.
  - apply (C8_lookup_not_found (clientOf {[ "gcr.io" := "GCR" ]}) "https://gcr.io").
    reflexivity.
Defined.

(** ** Bytes, hashing and constant-time comparison *)

Section Crypto.

Implicit Types (s : string) (c : ascii) (x y : list Z) (v a b : Z).

Lemma byte_of_range c : is_byte (byte_of c).
Proof. unfold is_byte, byte_of. pose proof (N_ascii_bounded c). lia. Qed.

Lemma char_of_byte_of c : char_of (byte_of c) = c.
Proof. unfold char_of, byte_of. rewrite N2Z.id. apply ascii_N_embedding. Qed.

Lemma string_of_bytes_bytes s : string_of_bytes (bytes s) = s.
Proof. induction s as [|c s IH]; [done|]. simpl. by rewrite char_of_byte_of, IH. Qed.

Lemma bytes_inj s1 s2 : bytes s1 = bytes s2 → s1 = s2.
Proof.
  intros H. rewrite <- (string_of_bytes_bytes s1), <- (string_of_bytes_bytes s2).
  by rewrite H.
Qed.

Lemma bytes_range s : Forall is_byte (bytes s).
Proof. induction s; constructor; auto using byte_of_range. Qed.

Lemma log2_byte a : is_byte a → Z.log2 a < 8.
Proof.
  intros [H0 H1]. destruct (decide (a = 0)) as [->|]; [done|].
  apply Z.log2_lt_pow2; lia.
Qed.

Lemma byte_of_log2 a : 0 ≤ a → Z.log2 a < 8 → is_byte a.
Proof.
  intros H0 Hl. split; [done|]. destruct (decide (a = 0)) as [->|]; [done|].
  change 256 with (2 ^ 8). apply Z.log2_lt_pow2; lia.
Qed.

Lemma lxor_byte a b : is_byte a → is_byte b → is_byte (Z.lxor a b).
Proof.
  intros Ha Hb. pose proof (log2_byte a Ha). pose proof (log2_byte b Hb).
  destruct Ha, Hb. apply byte_of_log2; [by apply Z.lxor_nonneg|].
  pose proof (Z.log2_lxor a b). lia.
Qed.

Lemma lor_byte a b : is_byte a → is_byte b → is_byte (Z.lor a b).
Proof.
  intros Ha Hb. pose proof (log2_byte a Ha). pose proof (log2_byte b Hb).
  destruct Ha, Hb. apply byte_of_log2; [by apply Z.lor_nonneg|].
  rewrite Z.log2_lor by lia. lia.
Qed.

Lemma or_xor_byte x y v :
  Forall is_byte x → Forall is_byte y → is_byte v →
  is_byte (fold_left HMAC.or_xor (zip x y) v).
Proof.
  intros Hx. revert y v. induction Hx as [|a x Ha Hx IH]; intros y v Hy Hv; [done|].
  destruct Hy as [|b y Hb Hy]; [done|]. simpl.
  apply IH; [done|]. by apply lor_byte, lxor_byte.
Qed.

Lemma or_xor_zero x y v :
  length x = length y → fold_left HMAC.or_xor (zip x y) v = 0 ↔ v = 0 ∧ x = y.
Proof.
  revert y v. induction x as [|a x IH]; intros [|b y] v Hl; simplify_eq/=.
  - split; [by intros ->|by intros [-> _]].
  - rewrite IH by done. unfold HMAC.or_xor. simpl.
    rewrite Z.lor_eq_0_iff, Z.lxor_eq_0_iff.
    split; [by intros [[-> ->] ->]|by intros [-> [= -> ->]]].
Qed.

Lemma ConstantTimeByteEq_zero v :
  is_byte v → HMAC.ConstantTimeByteEq v 0 = 1 ↔ v = 0.
Proof.
  intros [H0 H1]. unfold HMAC.ConstantTimeByteEq.
  rewrite Z.lxor_0_r, Z.shiftr_div_pow2 by lia. split.
  - intros H. destruct (decide (v = 0)) as [|Hv]; [done|].
    rewrite Z.mod_small, Z.div_small in H; lia.
  - by intros ->.
Qed.

(** The constant-time comparison decides the equality of two byte
    sequences. *)
Lemma Equal_true x y :
  Forall is_byte x → Forall is_byte y → HMAC.Equal x y = true ↔ x = y.
Proof.
  intros Hx Hy. unfold HMAC.Equal, HMAC.ConstantTimeCompare.
  rewrite bool_decide_eq_true. case_decide as Hl.
  - rewrite ConstantTimeByteEq_zero by (by apply or_xor_byte).
    rewrite or_xor_zero by done. split; [by intros [_ ->]|done].
  - split; [done|]. by intros ->.
Qed.

Lemma ValidateHMACSignature_true message signature secret :
  ValidateHMACSignature message signature secret = true
  ↔ signature = computeHMAC256 message secret.
Proof.
  unfold ValidateHMACSignature. rewrite Equal_true by apply bytes_range.
  split; [apply bytes_inj|by intros ->].
Qed.

(** *** Sizes: a SHA-256 digest has 32 bytes, its hexadecimal form 64. *)

Lemma round_length st kw : length st = 8%nat → length (SHA256.round st kw) = 8%nat.
Proof. intros H. by do 9 (destruct st as [|? st]; simplify_eq/=). Qed.

Lemma rounds_length l st :
  length st = 8%nat → length (fold_left SHA256.round l st) = 8%nat.
Proof. revert st. induction l; simpl; auto using round_length. Qed.

Lemma compress_length h block :
  length h = 8%nat → length (SHA256.compress h block) = 8%nat.
Proof.
  intros H. unfold SHA256.compress. rewrite length_zip_with, rounds_length by done. lia.
Qed.

Lemma be_bytes_length n v : length (SHA256.be_bytes n v) = n.
Proof. induction n; simpl; auto. Qed.

Lemma be_bytes_concat_length n (l : list Z) :
  length (concat (map (SHA256.be_bytes n) l)) = (n * length l)%nat.
Proof.
  induction l as [|v l IH]; simpl; [lia|].
  rewrite length_app, be_bytes_length, IH. lia.
Qed.

Lemma compress_all_length blocks h :
  length h = 8%nat → length (fold_left SHA256.compress blocks h) = 8%nat.
Proof. revert h. induction blocks; simpl; auto using compress_length. Qed.

Lemma Sum256_length msg : length (SHA256.Sum256 msg) = 32%nat.
Proof.
  unfold SHA256.Sum256. cbv zeta.
  by rewrite be_bytes_concat_length, compress_all_length.
Qed.

Lemma HMAC_Sum_length key msg : length (HMAC.Sum key msg) = 32%nat.
Proof. apply Sum256_length. Qed.

Lemma EncodeToString_length x : String.length (EncodeToString x) = (2 * length x)%nat.
Proof. induction x as [|v x IH]; simpl; lia. Qed.

Lemma computeHMAC256_length message secret :
  String.length (computeHMAC256 message secret) = 64%nat.
Proof. unfold computeHMAC256. by rewrite EncodeToString_length, HMAC_Sum_length. Qed.

(** *** Time stamps *)

Lemma digits_length n v : String.length (digits n v) = n.
Proof.
  revert v. induction n as [|n IH]; intros v; simpl; [done|].
  rewrite length_append, IH. simpl. lia.
Qed.

Lemma FormatRFC3339_length t : String.length (FormatRFC3339 t) = 20%nat.
Proof. unfold FormatRFC3339. by rewrite !length_append, !digits_length. Qed.

Lemma FormatRFC3339_zone t : HasSuffix (FormatRFC3339 t) "Z" = true.
Proof.
  apply HasSuffix_true. unfold FormatRFC3339. eexists.
  rewrite <- !append_assoc. reflexivity.
Qed.

End Crypto.

(** The round constants and the initial hash value are those of Go's
    [crypto/sha256]. *)
Example sha256_constants :
  head SHA256.K = Some 0x428a2f98 ∧ last SHA256.K = Some 0xc67178f2
  ∧ head SHA256.init = Some 0x6a09e667 ∧ last SHA256.init = Some 0x5be0cd19
  ∧ length SHA256.K = 64%nat.
Proof. by repeat split. Qed.

(** Test vectors: FIPS 180-4 for SHA-256, RFC 4231 (test case 2) for
    HMAC-SHA256. *)
Example sha256_abc :
  EncodeToString (SHA256.Sum256 (bytes "abc"))
  = "ba7816bf8f01cfea414140de5dae2223b00361a396177a9cb410ff61f20015ad".
Proof. by vm_compute. Qed.

Example sha256_empty :
  EncodeToString (SHA256.Sum256 [])
  = "e3b0c44298fc1c149afbf4c8996fb92427ae41e4649b934ca495991b7852b855".
Proof. by vm_compute. Qed.

Example computeHMAC256_rfc4231 :
  computeHMAC256 "what do ya want for nothing?" "Jefe"
  = "5bdcc146bf60754e6a042426089575c75a003f089d2739839dec58b964ec3843".
Proof. by vm_compute. Qed.

Example sha256_two_blocks :
  EncodeToString
    (SHA256.Sum256 (bytes "abcdbcdecdefdefgefghfghighijhijkijkljklmklmnlmnomnopnopq"))
  = "248d6a61d20638b8e5c026930c3e6039a33ce45964ff2167f6ecedd419db06c1".
Proof. by vm_compute. Qed.

(** RFC 4231, test case 6: a key longer than the block is hashed first. *)
Example hmac_long_key :
  EncodeToString
    (HMAC.Sum (repeat 170 131)
       (bytes "Test Using Larger Than Block-Size Key - Hash Key First"))
  = "60e431591ee0b67f0d8a26aacbf5b77f8e0bc6213728c5140546040f0ee37f54".
Proof. by vm_compute. Qed.

Example FormatRFC3339_example :
  FormatRFC3339 {| Year := 2024; Month := 3; Day := 9; Hour := 7; Minute := 5; Second := 0 |}
  = "2024-03-09T07:05:00Z".
Proof. reflexivity. Qed.

(** The two header names are in canonical form already. *)
Example header_keys_canonical :
  CanonicalMIMEHeaderKey "X-Aqua-Timestamp" = "X-Aqua-Timestamp"
  ∧ CanonicalMIMEHeaderKey "X-Aqua-Signature" = "X-Aqua-Signature".
Proof. by split. Qed.

(** ** Request signing *)

(** C9: with an empty secret [SignRequest] returns no error and the request
    it was given: no header is added, and in particular neither
    [X-Aqua-Timestamp] nor [X-Aqua-Signature]. *)
Theorem C9_SignRequest_without_secret
    (tm : TokenManager) (now : Time) (req : Request) (body : string) :
  HMACSecret (config tm) = "" →
  SignRequest tm now req body = (req, None)
  ∧ Header (SignRequest tm now req body).1 = Header req
  ∧ Header (SignRequest tm now req body).1 !! "X-Aqua-Timestamp"
    = Header req !! "X-Aqua-Timestamp"
  ∧ Header (SignRequest tm now req body).1 !! "X-Aqua-Signature"
    = Header req !! "X-Aqua-Signature".
Proof. intros H. unfold SignRequest. by rewrite decide_True. Qed.

(** C9, witness: the sample request with no secret. *)
Lemma C9_SignRequest_without_secret_witness :
  SignRequest unsignedManager sampleTime sampleRequest "{}" = (sampleRequest, None).
Proof.
  apply (C9_SignRequest_without_secret unsignedManager sampleTime sampleRequest "{}").
  reflexivity.
Defined.

(** C5: with a non-empty secret [SignRequest] signs the method, the URL, the
    RFC 3339 UTC time stamp and the body, in this order, joined with a
    newline and with nothing after the body; the signature is the
    hexadecimal form (64 digits) of the HMAC-SHA256 of that message under the
    secret, and the [X-Aqua-Timestamp] header holds the very time stamp of
    the message. *)
Theorem C5_SignRequest_signs
    (tm : TokenManager) (now : Time) (req : Request) (body : string) :
  HMACSecret (config tm) ≠ "" →
  let timestamp := FormatRFC3339 now in
  let message := Join [Method req; URL req; timestamp; body] newline in
  let signature :=
    EncodeToString (HMAC.Sum (bytes (HMACSecret (config tm))) (bytes message)) in
  SignRequest tm now req body =
    ({| Method := Method req; URL := URL req;
        Header := <["X-Aqua-Signature" := [signature]]>
                    (<["X-Aqua-Timestamp" := [timestamp]]> (Header req)) |}, None)
  ∧ Header_Get (SignRequest tm now req body).1 "X-Aqua-Timestamp" = timestamp
  ∧ Header_Get (SignRequest tm now req body).1 "X-Aqua-Signature" = signature
  ∧ message = Method req +:+ newline +:+ URL req +:+ newline +:+ timestamp
              +:+ newline +:+ body
  ∧ String.length timestamp = 20%nat
  ∧ HasSuffix timestamp "Z" = true
  ∧ String.length signature = 64%nat.
Proof.
  intros Hs timestamp message signature.
  assert (SignRequest tm now req body =
    ({| Method := Method req; URL := URL req;
        Header := <["X-Aqua-Signature" := [signature]]>
                    (<["X-Aqua-Timestamp" := [timestamp]]> (Header req)) |}, None)) as ->.
  { unfold SignRequest. by rewrite decide_False. }
  unfold Header_Get.
  destruct header_keys_canonical as [-> ->]. simpl.
  rewrite lookup_insert_ne, !lookup_insert_eq by done.
  do 4 (split; [done|]).
  split; [apply (FormatRFC3339_length now)|].
  split; [apply (FormatRFC3339_zone now)|].
  apply (computeHMAC256_length message).
Qed.

(** C5, witness: the sample request. *)
Lemma C5_SignRequest_signs_witness :
  Header_Get (SignRequest sampleManager sampleTime sampleRequest "{}").1 "X-Aqua-Timestamp"
  = "2024-03-09T07:05:00Z".
Proof.
  apply (C5_SignRequest_signs sampleManager sampleTime sampleRequest "{}").
  discriminate.
Defined.

(** The signature the sample request gets. *)
Example SignRequest_sample :
  Header_Get (SignRequest sampleManager sampleTime sampleRequest "{}").1 "X-Aqua-Signature"
  = computeHMAC256
      (Join ["POST"; "https://aqua.example/api/v2/images"; "2024-03-09T07:05:00Z"; "{}"]
            newline) "Jefe".
Proof. by vm_compute. Qed.

(** C6: a signature computed by [computeHMAC256] for a message and a secret
    is accepted by [ValidateHMACSignature] for that message and secret, and
    every signature that differs from it (in a byte, or in length) is
    rejected. *)
Theorem C6_validate_own_signature (message secret : string) :
  ValidateHMACSignature message (computeHMAC256 message secret) secret = true
  ∧ (∀ signature,
       signature ≠ computeHMAC256 message secret →
       ValidateHMACSignature message signature secret = false)
  ∧ (∀ signature i,
       byteAt signature i ≠ byteAt (computeHMAC256 message secret) i →
       ValidateHMACSignature message signature secret = false).
Proof.
  assert (∀ signature, signature ≠ computeHMAC256 message secret →
            ValidateHMACSignature message signature secret = false) as Hne.
  { intros signature Hs. apply not_true_iff_false.
    by rewrite ValidateHMACSignature_true. }
  split; [by apply ValidateHMACSignature_true|]. split; [done|].
  intros signature i Hi. apply Hne. by intros ->.
Qed.

(** C6, witness: a signature whose last digit is altered. *)
Lemma C6_validate_own_signature_witness :
  ValidateHMACSignature "what do ya want for nothing?"
    "5bdcc146bf60754e6a042426089575c75a003f089d2739839dec58b964ec3842" "Jefe" = false.
Proof.
  apply (C6_validate_own_signature "what do ya want for nothing?" "Jefe").
  by vm_compute.
Defined.


(** * Further properties of the code *)

(** ** More facts about the [strings] functions *)

Section MoreStringFacts.

Implicit Types (s a b : string) (c d : ascii) (i j n : nat).

Lemma Contains_none s sub : index_nat s sub = None → Contains s sub = false.
Proof.
  intros H. destruct (Contains s sub) eqn:Hc; [|done].
  apply Contains_index in Hc as [i Hi]. congruence.
Qed.

Lemma Contains_cons_ne d c s :
  d ≠ c → Contains (String d s) (String c "") = Contains s (String c "").
Proof.
  intros Hd. unfold Contains, Index. rewrite index_nat_unfold. simpl HasPrefix.
  rewrite decide_False by done.
  destruct (index_nat s (String c "")); simpl; [|done].
  by rewrite !(proj2 (Z.leb_le _ _)) by lia.
Qed.

Lemma index_nat_get s c i : index_nat s (String c "") = Some i → String.get i s = Some c.
Proof.
  revert i. induction s as [|d s IH]; intros i; rewrite index_nat_unfold; [done|].
  simpl HasPrefix. case_decide as Hd; [by intros [= <-]; subst|].
  destruct (index_nat s (String c "")) as [j|]; [|done]. intros [= <-]. by apply IH.
Qed.

(** No instance of the byte stands before the one [Index] finds. *)
Lemma index_nat_first s c i :
  index_nat s (String c "") = Some i → Contains (take_bytes i s) (String c "") = false.
Proof.
  revert i. induction s as [|d s IH]; intros i; rewrite index_nat_unfold; [done|].
  simpl HasPrefix. case_decide as Hd; [by intros [= <-]|].
  destruct (index_nat s (String c "")) as [j|]; [|done]. intros [= <-]. simpl.
  rewrite Contains_cons_ne by done. by apply IH.
Qed.

(** No instance of the byte stands after the one [LastIndex] finds. *)
Lemma last_index_nat_after s c i :
  last_index_nat s (String c "") = Some i →
  Contains (drop_bytes (S i) s) (String c "") = false.
Proof.
  revert i. induction s as [|d s IH]; intros i; simpl last_index_nat; [done|].
  destruct (last_index_nat s (String c "")) as [j|] eqn:Hj.
  - intros [= <-]. by apply IH.
  - case_decide; [|done]. intros [= <-]. simpl.
    by apply Contains_none, last_index_nat_None.
Qed.

Lemma get_take_bytes i j s : (j < i)%nat → String.get j (take_bytes i s) = String.get j s.
Proof.
  revert j s. induction i as [|i IH]; intros j [|d s] H; simpl; [lia|lia|done|].
  destruct j; [done|]. apply IH. lia.
Qed.

Lemma take_bytes_le i j s :
  (i ≤ j)%nat → take_bytes j s = take_bytes i s +:+ drop_bytes i (take_bytes j s).
Proof.
  revert j s. induction i as [|i IH]; intros j [|d s] H; simpl.
  - by destruct j.
  - done.
  - by destruct j.
  - destruct j; [lia|]. simpl. rewrite append_cons. f_equal. apply IH. lia.
Qed.

(** *** [Split] and [Join] on a one-byte separator *)

Lemma split_go_no_sep c s :
  Contains s (String c "") = false → split_go (String c "") 0 s = [s].
Proof.
  induction s as [|d s IH]; [done|]. intros H. simpl.
  destruct (decide (d = c)) as [->|Hd].
  { exfalso. pose proof (proj1 (Contains_false _ _) H) as H'. by apply (H' "" s). }
  rewrite Contains_cons_ne in H by done. by rewrite IH.
Qed.

Lemma split_go_app c a s :
  Contains a (String c "") = false →
  split_go (String c "") 0 (a +:+ String c s) = a :: split_go (String c "") 0 s.
Proof.
  induction a as [|d a IH]; intros H.
  - rewrite append_empty_l. simpl. by rewrite decide_True.
  - rewrite append_cons. simpl.
    destruct (decide (d = c)) as [->|Hd].
    { exfalso. pose proof (proj1 (Contains_false _ _) H) as H'. by apply (H' "" a). }
    rewrite Contains_cons_ne in H by done. by rewrite IH.
Qed.

(** Splitting what [Join] built gives the elements back. *)
Lemma Split_Join c (elems : list string) :
  elems ≠ [] → Forall (λ e, Contains e (String c "") = false) elems →
  Split (Join elems (String c "")) (String c "") = elems.
Proof.
  unfold Split. induction elems as [|e [|e' rest] IH]; intros Hne Hall; [done| |].
  - simpl. apply split_go_no_sep. by inversion Hall.
  - inversion Hall as [|?? He Hrest]; subst.
    change (Join (e :: e' :: rest) (String c ""))
      with (e +:+ String c (Join (e' :: rest) (String c ""))).
    rewrite split_go_app by done. f_equal. by apply IH.
Qed.

(** Every element of [Split] is free of the separator. *)
Lemma split_go_elements c s :
  Forall (λ e, Contains e (String c "") = false) (split_go (String c "") 0 s).
Proof.
  induction s as [|d s IH]; [by repeat constructor|]. simpl.
  case_decide as Hd; [by constructor|].
  pose proof (split_go_nonempty (String c "") 0 s) as Hne.
  destruct (split_go (String c "") 0 s) as [|p ps]; [done|].
  inversion IH; subst. constructor; [|done]. by rewrite Contains_cons_ne.
Qed.

(** *** Reversal *)

Lemma rev_app_rev_app s a b :
  String.rev_app (String.rev_app s a) b = String.rev_app a (s +:+ b).
Proof.
  revert a b. induction s as [|c s IH]; intros a b; [done|].
  simpl. by rewrite IH.
Qed.

Lemma rev_rev s : String.rev (String.rev s) = s.
Proof. unfold String.rev. rewrite rev_app_rev_app. simpl. apply append_empty_r. Qed.

End MoreStringFacts.

(** ** More about the reference parser *)

Section MoreParser.

Implicit Types (ref w d : string) (m : mockAquaClient).

Lemma splitImageRef_steps ref tag w' hasPort hostname repository :
  handleTag (removeDigest ref) = (tag, w', hasPort) →
  handleRegistry w' hasPort = (hostname, repository) →
  splitImageRef ref = (hostname, repository, tag).
Proof. intros Ht Hr. unfold splitImageRef. by rewrite Ht, Hr. Qed.

(** The working reference has no ["@"]. *)
Lemma removeDigest_no_at ref : Contains (removeDigest ref) "@" = false.
Proof.
  unfold removeDigest. destruct (Contains ref "@") eqn:Hc; [|done].
  cbv zeta. rewrite split_head_char.
  destruct (index_nat ref "@") as [i|] eqn:Hi; [by apply index_nat_first|].
  apply Contains_none in Hi. congruence.
Qed.

(** The three outcomes of the tag step. *)
Lemma handleTag_cases w :
  handleTag w = ("latest", w, false)
  ∨ (handleTag w = ("latest", w, true) ∧ lastColonIsPort w = true)
  ∨ (handleTag w = (slice_from w (LastIndex w ":" + 1), slice_to w (LastIndex w ":"), false)
     ∧ w = slice_to w (LastIndex w ":") +:+ ":" +:+ slice_from w (LastIndex w ":" + 1)).
Proof.
  unfold handleTag, lastColonIsPort.
  destruct (0 <? LastIndex w ":") eqn:Hi; [|by left].
  apply Z.ltb_lt in Hi. destruct (LastIndex_range w ":") as [_ Hw]; [lia|].
  change (len ":") with 1 in Hw.
  destruct (Contains (slice_to w (LastIndex w ":")) "/"); [by right; right|].
  destruct (Contains (slice_to w (LastIndex w ":")) "."); [by right; left|by right; right].
Qed.

(** The two outcomes of the host step. *)
Lemma handleRegistry_cases w hasPort :
  handleRegistry w hasPort = ("docker.io", w)
  ∨ (handleRegistry w hasPort = (slice_to w (Index w "/"), slice_from w (Index w "/" + 1))
     ∧ 0 < Index w "/"
     ∧ w = slice_to w (Index w "/") +:+ "/" +:+ slice_from w (Index w "/" + 1)
     ∧ (Contains (slice_to w (Index w "/")) "." = true
        ∨ (hasPort = true ∧ Contains (slice_to w (Index w "/")) ":" = true))).
Proof.
  unfold handleRegistry. destruct (0 <? Index w "/") eqn:Hi; [|by left].
  apply Z.ltb_lt in Hi. destruct (Index_range w "/") as [_ Hw]; [lia|].
  change (len "/") with 1 in Hw.
  destruct (Contains (slice_to w (Index w "/")) ".") eqn:Hdot; simpl.
  { right. auto. }
  destruct hasPort; simpl; [|by left].
  destruct (Contains (slice_to w (Index w "/")) ":") eqn:Hc; [|by left].
  right. repeat split; auto.
Qed.

(** The text before the first slash has no slash. *)
Lemma host_part_no_slash w :
  0 ≤ Index w "/" → Contains (slice_to w (Index w "/")) "/" = false.
Proof.
  unfold Index, slice_to. destruct (index_nat w "/") as [j|] eqn:Hj; simpl; [|lia].
  intros _. rewrite Nat2Z.id. by apply index_nat_first.
Qed.

(** When the last colon is read as a port, the text before the first slash
    has the dot that stands before the colon. *)
Lemma port_dot_in_host_part w :
  lastColonIsPort w = true → 0 ≤ Index w "/" →
  Contains (slice_to w (Index w "/")) "." = true.
Proof.
  unfold lastColonIsPort, LastIndex, Index, slice_to.
  intros [[Hi Hs%negb_true_iff]%andb_true_iff Hd]%andb_true_iff.
  destruct (last_index_nat w ":") as [i|] eqn:Hli; simpl in *; [|done].
  destruct (index_nat w "/") as [j|] eqn:Hj; simpl; [|lia]. intros _.
  rewrite Nat2Z.id in *.
  destruct (decide (j < i)%nat) as [Hlt|Hge].
  - apply index_nat_get in Hj. rewrite <- (get_take_bytes i j w) in Hj by done.
    apply get_Contains in Hj. congruence.
  - rewrite (take_bytes_le i j w) by lia. by apply Contains_app_l.
Qed.

(** A text with no slash starts with no scheme. *)
Lemma normalizeHostname_no_slash h : Contains h "/" = false → normalizeHostname h = h.
Proof.
  intros Hs. apply normalizeHostname_id.
  - destruct (HasPrefix h "http://") eqn:Hp; [|done].
    apply HasPrefix_true in Hp as [b ->].
    assert (Contains ("http://" +:+ b) "/" = true); [|congruence].
    apply Contains_true. by exists "http:", ("/" +:+ b).
  - destruct (HasPrefix h "https://") eqn:Hp; [|done].
    apply HasPrefix_true in Hp as [b ->].
    assert (Contains ("https://" +:+ b) "/" = true); [|congruence].
    apply Contains_true. by exists "https:", ("/" +:+ b).
Qed.

(** The hostname the parser finds has a dot and no slash. *)
Lemma hostname_shape ref :
  Contains (ref_hostname ref) "." = true ∧ Contains (ref_hostname ref) "/" = false.
Proof.
  unfold ref_hostname.
  destruct (handleTag (removeDigest ref)) as [[tag w'] hasPort] eqn:Ht.
  destruct (handleRegistry w' hasPort) as [hostname repository] eqn:Hr.
  rewrite (splitImageRef_steps _ _ _ _ _ _ Ht Hr). simpl.
  destruct (handleRegistry_cases w' hasPort) as [Hc|(Hc & Hj & _ & Hdot)];
    rewrite Hc in Hr; simplify_eq; [done|].
  split; [|apply host_part_no_slash; lia].
  destruct Hdot as [Hdot|[-> _]]; [done|].
  destruct (handleTag_cases (removeDigest ref)) as [H|[[H Hport]|[H _]]];
    rewrite H in Ht; simplify_eq.
  apply port_dot_in_host_part; [done|lia].
Qed.

Lemma ConvertImageRef_by_hostname m ref :
  ConvertImageRef m ref =
    match registryCache m !! ref_hostname ref with
    | Some registryName => (registryName, ref_repository ref, ref_tag ref, None)
    | None => ("", "", "", Some (lookupFailed ref (notFound (ref_hostname ref))))
    end.
Proof.
  destruct (hostname_shape ref) as [_ Hs].
  unfold ref_hostname, ref_repository, ref_tag in *.
  destruct (splitImageRef ref) as [[hostname repository] tag] eqn:Hsplit. simpl in *.
  apply ConvertImageRef_split; [done|]. by apply normalizeHostname_no_slash.
Qed.

(** A reference with no slash is kept whole by the host step. *)
Lemma slash_free_hostname ref :
  Contains ref "/" = false →
  ref_hostname ref = "docker.io"
  ∧ ((removeDigest ref = ref_repository ref ∧ ref_tag ref = "latest")
     ∨ removeDigest ref = ref_repository ref +:+ ":" +:+ ref_tag ref).
Proof.
  intros Hs.
  assert (Contains (removeDigest ref) "/" = false) as Hw.
  { destruct (removeDigest_prefix ref) as [d Hd].
    destruct (Contains (removeDigest ref) "/") eqn:Hc; [|done].
    rewrite Hd in Hs. by rewrite Contains_app_l in Hs. }
  unfold ref_hostname, ref_repository, ref_tag.
  destruct (handleTag (removeDigest ref)) as [[tag w'] hasPort] eqn:Ht.
  assert (Contains w' "/" = false) as Hw'.
  { destruct (handleTag_cases (removeDigest ref)) as [H|[[H _]|[H _]]];
      rewrite H in Ht; simplify_eq; [done..|].
    by apply Contains_take_bytes. }
  assert (handleRegistry w' hasPort = ("docker.io", w')) as Hr.
  { unfold handleRegistry. by rewrite Index_neg. }
  rewrite (splitImageRef_steps _ _ _ _ _ _ Ht Hr). simpl. split; [done|].
  destruct (handleTag_cases (removeDigest ref)) as [H|[[H _]|[H Hsplit]]];
    rewrite H in Ht; simplify_eq; auto.
Qed.

End MoreParser.

(** X1: a reference with no ["/"] gets the host ["docker.io"]; the part
    before its first ["@"] is the repository, followed by [":"] and the tag
    unless the tag is the default; and [ConvertImageRef] returns what the
    table stores for ["docker.io"], or fails when it stores nothing. *)
Theorem slash_free_reference_is_docker_hub (m : mockAquaClient) (ref : string) :
  Contains ref "/" = false →
  ref_hostname ref = "docker.io"
  ∧ ((removeDigest ref = ref_repository ref ∧ ref_tag ref = "latest")
     ∨ removeDigest ref = ref_repository ref +:+ ":" +:+ ref_tag ref)
  ∧ ConvertImageRef m ref =
      match registryCache m !! "docker.io" with
      | Some registryName => (registryName, ref_repository ref, ref_tag ref, None)
      | None => ("", "", "", Some (lookupFailed ref (notFound "docker.io")))
      end.
Proof.
  intros Hs. destruct (slash_free_hostname ref Hs) as [Hh Hparts].
  split; [done|]. split; [done|]. by rewrite ConvertImageRef_by_hostname, Hh.
Qed.

(** X1, witness: ["nginx:1.21.0"] with Docker Hub in the table. *)
Lemma slash_free_reference_is_docker_hub_witness :
  ConvertImageRef (clientOf {[ "docker.io" := "Docker Hub" ]}) "nginx:1.21.0"
  = ("Docker Hub", "nginx", "1.21.0", None).
Proof.
  destruct (slash_free_reference_is_docker_hub
              (clientOf {[ "docker.io" := "Docker Hub" ]}) "nginx:1.21.0")
    as (_ & _ & H); [reflexivity|exact H].
Defined.

(** X2: the parts rebuild the reference.  The part of the input before its
    first ["@"] is a base, followed by [":"] and the tag unless the tag is
    the default ["latest"]; the base is the repository when the host is the
    default ["docker.io"], and the host, ["/"] and the repository
    otherwise. *)
Theorem parts_rebuild_reference (ref : string) :
  ∃ base,
    ((base = ref_repository ref ∧ ref_hostname ref = "docker.io")
     ∨ base = ref_hostname ref +:+ "/" +:+ ref_repository ref)
    ∧ ((removeDigest ref = base ∧ ref_tag ref = "latest")
       ∨ removeDigest ref = base +:+ ":" +:+ ref_tag ref).
Proof.
  unfold ref_hostname, ref_repository, ref_tag.
  destruct (handleTag (removeDigest ref)) as [[tag w'] hasPort] eqn:Ht.
  destruct (handleRegistry w' hasPort) as [hostname repository] eqn:Hr.
  rewrite (splitImageRef_steps _ _ _ _ _ _ Ht Hr). simpl. exists w'. split.
  - destruct (handleRegistry_cases w' hasPort) as [Hc|(Hc & _ & Hw' & _)];
      rewrite Hc in Hr; simplify_eq; auto.
  - destruct (handleTag_cases (removeDigest ref)) as [H|[[H _]|[H Hw]]];
      rewrite H in Ht; simplify_eq; auto.
Qed.

(** X3: nothing of the digest reaches the result: neither the hostname, nor
    the repository, nor the tag contains an ["@"]. *)
Theorem parts_have_no_digest (ref : string) :
  Contains (ref_hostname ref) "@" = false
  ∧ Contains (ref_repository ref) "@" = false
  ∧ Contains (ref_tag ref) "@" = false.
Proof.
  pose proof (removeDigest_no_at ref) as Hw.
  unfold ref_hostname, ref_repository, ref_tag.
  destruct (handleTag (removeDigest ref)) as [[tag w'] hasPort] eqn:Ht.
  destruct (handleRegistry w' hasPort) as [hostname repository] eqn:Hr.
  rewrite (splitImageRef_steps _ _ _ _ _ _ Ht Hr). simpl.
  assert (Contains w' "@" = false ∧ Contains tag "@" = false) as [Hw' Htag].
  { destruct (handleTag_cases (removeDigest ref)) as [H|[[H _]|[H _]]];
      rewrite H in Ht; simplify_eq; [done..|].
    split; [by apply Contains_take_bytes|by apply Contains_drop_bytes]. }
  destruct (handleRegistry_cases w' hasPort) as [Hc|(Hc & _)];
    rewrite Hc in Hr; simplify_eq; [done|].
  split; [by apply Contains_take_bytes|]. split; [by apply Contains_drop_bytes|done].
Qed.

(** X4: the tag never contains a [":"]: it is the default or the text after
    the last colon. *)
Theorem tag_has_no_colon (ref : string) : Contains (ref_tag ref) ":" = false.
Proof.
  rewrite ref_tag_handleTag.
  destruct (handleTag_cases (removeDigest ref)) as [H|[[H _]|[H _]]];
    rewrite H; simpl; [done..|].
  unfold LastIndex, slice_from.
  destruct (last_index_nat (removeDigest ref) ":") as [i|] eqn:Hi; simpl.
  - replace (Z.to_nat (Z.of_nat i + 1)) with (S i) by lia.
    by apply last_index_nat_after.
  - by apply Contains_none, last_index_nat_None.
Qed.

(** X5: the hostname [ConvertImageRef] looks up always contains a ["."] and
    never a ["/"], so [normalizeHostname] leaves it as it is: the lookup key
    is the hostname itself. *)
Theorem hostname_has_dot_and_no_scheme (ref : string) :
  Contains (ref_hostname ref) "." = true
  ∧ Contains (ref_hostname ref) "/" = false
  ∧ normalizeHostname (ref_hostname ref) = ref_hostname ref.
Proof.
  destruct (hostname_shape ref) as [Hd Hs].
  split; [done|]. split; [done|]. by apply normalizeHostname_no_slash.
Qed.

(** X6: [ConvertImageRef] succeeds exactly when the table has an entry under
    the hostname the parser found; it then returns the stored name with the
    parsed repository and tag, and otherwise three empty strings and an
    error that wraps the lookup's error and quotes the reference as it was
    given. *)
Theorem ConvertImageRef_outcome (m : mockAquaClient) (ref : string) :
  ConvertImageRef m ref =
    match registryCache m !! ref_hostname ref with
    | Some registryName => (registryName, ref_repository ref, ref_tag ref, None)
    | None => ("", "", "", Some (lookupFailed ref (notFound (ref_hostname ref))))
    end
  ∧ ((ConvertImageRef m ref).2 = None ↔ is_Some (registryCache m !! ref_hostname ref))
  ∧ (∀ err, (ConvertImageRef m ref).2 = Some err →
       Unwrap err = Some (notFound (ref_hostname ref))
       ∧ Error err = "looking up registry name for " +:+ ref
                     +:+ ": registry not found in Aqua: " +:+ ref_hostname ref).
Proof.
  rewrite ConvertImageRef_by_hostname.
  destruct (registryCache m !! ref_hostname ref) as [name|]; simpl.
  - split; [done|]. split; [by split; eauto|]. by intros err.
  - split; [done|]. split; [by split; [|intros [? ?]]|]. by intros err [= <-].
Qed.

(** X7: an entry whose key has no ["."] (such as ["localhost:5000"]) is
    never used: adding it to the table changes no result of
    [ConvertImageRef]. *)
Theorem dotless_entry_is_never_used (m : mockAquaClient) (key name ref : string) :
  Contains key "." = false →
  ConvertImageRef (withEntry m key name) ref = ConvertImageRef m ref.
Proof.
  intros Hk. rewrite !ConvertImageRef_by_hostname. simpl.
  rewrite lookup_insert_ne; [done|].
  intros ->. destruct (hostname_shape ref) as [Hd _]. congruence.
Qed.

(** X7, witness: an entry for ["localhost:5000"]. *)
Lemma dotless_entry_is_never_used_witness :
  ConvertImageRef (withEntry (clientOf ∅) "localhost:5000" "Local") "localhost:5000/image"
  = ConvertImageRef (clientOf ∅) "localhost:5000/image".
Proof.
  apply (dotless_entry_is_never_used (clientOf ∅) "localhost:5000" "Local").
  reflexivity.
Defined.

(** X8: the [hasPort] flag never decides the host step: after the tag step,
    the host step gives the same hostname and repository with the flag
    cleared. *)
Theorem hasPort_never_decides (w : string) :
  handleRegistry (handleTag w).1.2 (handleTag w).2
  = handleRegistry (handleTag w).1.2 false.
Proof.
  destruct (handleTag_cases w) as [H|[[H Hport]|[H _]]]; rewrite H; simpl; [done| |done].
  unfold handleRegistry. destruct (0 <? Index w "/") eqn:Hi; [|done].
  apply Z.ltb_lt in Hi. by rewrite port_dot_in_host_part by (done || lia).
Qed.

(** X9: what follows the first ["@"] plays no part: a reference with a digest
    is split like the reference without it, and [ConvertImageRef] returns
    the same three strings and fails in the same cases. *)
Theorem digest_never_matters (m : mockAquaClient) (w digest : string) :
  Contains w "@" = false →
  splitImageRef (w +:+ "@" +:+ digest) = splitImageRef w
  ∧ (ConvertImageRef m (w +:+ "@" +:+ digest)).1 = (ConvertImageRef m w).1
  ∧ ((ConvertImageRef m (w +:+ "@" +:+ digest)).2 = None
     ↔ (ConvertImageRef m w).2 = None).
Proof.
  intros Hw.
  assert (splitImageRef (w +:+ "@" +:+ digest) = splitImageRef w) as Hs.
  { unfold splitImageRef. by rewrite removeDigest_app, removeDigest_id. }
  split; [done|]. rewrite !ConvertImageRef_by_hostname.
  unfold ref_hostname, ref_repository, ref_tag. rewrite Hs.
  by destruct (registryCache m !! _).
Qed.

(** X9, witness: a reference of the test table, with and without digest. *)
Lemma digest_never_matters_witness :
  splitImageRef ("docker.io/library/alpine" +:+ "@" +:+ "sha256:abcd1234")
  = splitImageRef "docker.io/library/alpine".
Proof.
  apply (digest_never_matters (clientOf ∅) "docker.io/library/alpine" "sha256:abcd1234").
  reflexivity.
Defined.

(** X10: [ConvertImageRef] meets every row of the tables of
    [TestConvertImageRef] and [TestConvertImageRef_EdgeCases]. *)
Theorem test_rows_pass : forallb rowPasses testRows = true.
Proof. by vm_compute. Qed.

(** X11, witness: a dotted host with a port and no tag. *)
Lemma tag_latest_only_if_witness :
  LastIndex "registry.io:5000/image" ":" ≤ 0
  ∨ lastColonIsPort "registry.io:5000/image" = true.
Proof. apply (tag_latest_only_if "registry.io:5000/image"); reflexivity. Defined.

(** X12, witness: ["registry.io"], port ["5000"], path ["team/image"]. *)
Lemma host_port_without_tag_witness :
  splitImageRef ("registry.io" +:+ ":" +:+ "5000" +:+ "/" +:+ "team/image")
  = ("registry.io" +:+ ":" +:+ "5000", "team/image", "latest").
Proof. apply (host_port_without_tag "registry.io" "5000" "team/image"); reflexivity. Defined.

(** ** More about request signing *)

Section MoreSigning.

Implicit Types (tm : TokenManager) (now : Time) (req : Request) (body : string).

(** The request [SignRequest] leaves when a secret is configured. *)
Lemma SignRequest_signed tm now req body :
  HMACSecret (config tm) ≠ "" →
  SignRequest tm now req body =
    ({| Method := Method req; URL := URL req;
        Header :=
          <["X-Aqua-Signature" :=
              [computeHMAC256 (signedMessage now req body) (HMACSecret (config tm))]]>
            (<["X-Aqua-Timestamp" := [FormatRFC3339 now]]> (Header req)) |}, None).
Proof. intros Hs. unfold SignRequest. by rewrite decide_False. Qed.

Lemma hex_digit_lower n : is_lower_hex (hex_digit n) = true.
Proof.
  unfold hex_digit. generalize (Z.to_nat n). intros k.
  do 16 (destruct k as [|k]; [reflexivity|]). reflexivity.
Qed.

Lemma EncodeToString_lower (x : list Z) :
  all_bytes is_lower_hex (EncodeToString x) = true.
Proof. induction x as [|v x IH]; [done|]. simpl. by rewrite !hex_digit_lower, IH. Qed.

(** A decimal digit is not a line feed. *)
Lemma digit_not_newline n : char_of (48 + n mod 10) ≠ ascii_of_nat 10.
Proof.
  unfold char_of. intros H. apply (f_equal N_of_ascii) in H.
  pose proof (Z.mod_pos_bound n 10 ltac:(lia)).
  rewrite N_ascii_embedding in H by lia. simpl in H. lia.
Qed.

Lemma digits_no_newline k n : Contains (digits k n) newline = false.
Proof.
  revert n. induction k as [|k IH]; intros n; [done|]. simpl.
  apply Contains_byte_app_false; [apply IH|].
  by rewrite Contains_cons_ne by apply digit_not_newline.
Qed.

Lemma FormatRFC3339_no_newline now : Contains (FormatRFC3339 now) newline = false.
Proof.
  unfold FormatRFC3339.
  repeat (apply Contains_byte_app_false; [first [apply digits_no_newline|done]|]).
  done.
Qed.

(** A text is cut in one way only at the first instance of a byte. *)
Lemma cut_unique c a a' x x' :
  Contains a (String c "") = false → Contains a' (String c "") = false →
  a +:+ String c x = a' +:+ String c x' → a = a' ∧ x = x'.
Proof.
  revert a'. induction a as [|d a IH]; intros [|d' a'] Ha Ha' Heq.
  - rewrite !append_empty_l in Heq. by simplify_eq.
  - rewrite append_empty_l, append_cons in Heq. simplify_eq.
    exfalso. pose proof (proj1 (Contains_false _ _) Ha') as H. by apply (H "" a').
  - rewrite append_empty_l, append_cons in Heq. simplify_eq.
    exfalso. pose proof (proj1 (Contains_false _ _) Ha) as H. by apply (H "" a).
  - rewrite !append_cons in Heq. simplify_eq.
    assert (d' ≠ c) as Hd.
    { intros ->. pose proof (proj1 (Contains_false _ _) Ha) as Hc. by apply (Hc "" a). }
    rewrite Contains_cons_ne in Ha, Ha' by done.
    destruct (IH a' Ha Ha' ltac:(done)) as [-> ->]. done.
Qed.

End MoreSigning.

(** X13: what [SignRequest] writes is accepted by [ValidateHMACSignature]: the
    message rebuilt from the signed request (method, URL, the
    [X-Aqua-Timestamp] header and the body, joined by line feeds) validates
    against the [X-Aqua-Signature] header under the secret. *)
Theorem signed_request_validates
    (tm : TokenManager) (now : Time) (req : Request) (body : string) :
  HMACSecret (config tm) ≠ "" →
  let signed := (SignRequest tm now req body).1 in
  ValidateHMACSignature
    (Join [Method signed; URL signed; Header_Get signed "X-Aqua-Timestamp"; body] newline)
    (Header_Get signed "X-Aqua-Signature")
    (HMACSecret (config tm)) = true.
Proof.
  intros Hs signed. unfold signed. rewrite SignRequest_signed by done.
  unfold Header_Get. destruct header_keys_canonical as [-> ->]. simpl.
  rewrite lookup_insert_ne, !lookup_insert_eq by done.
  by apply ValidateHMACSignature_true.
Qed.

(** X13, witness: the sample request. *)
Lemma signed_request_validates_witness :
  ValidateHMACSignature
    (Join ["POST"; "https://aqua.example/api/v2/images";
           Header_Get (SignRequest sampleManager sampleTime sampleRequest "{}").1
             "X-Aqua-Timestamp"; "{}"] newline)
    (Header_Get (SignRequest sampleManager sampleTime sampleRequest "{}").1
       "X-Aqua-Signature")
    "Jefe" = true.
Proof.
  apply (signed_request_validates sampleManager sampleTime sampleRequest "{}").
  discriminate.
Defined.

(** X14: [SignRequest] touches nothing but its two headers: the method, the
    URL and the values of every other header are those of the request it
    was given, whether a secret is configured or not. *)
Theorem SignRequest_frame
    (tm : TokenManager) (now : Time) (req : Request) (body : string) :
  Method (SignRequest tm now req body).1 = Method req
  ∧ URL (SignRequest tm now req body).1 = URL req
  ∧ (∀ key, key ≠ "X-Aqua-Timestamp" → key ≠ "X-Aqua-Signature" →
       Header (SignRequest tm now req body).1 !! key = Header req !! key)
  ∧ (SignRequest tm now req body).2 = None.
Proof.
  destruct (decide (HMACSecret (config tm) = "")) as [He|Hs].
  - unfold SignRequest. by rewrite decide_True.
  - rewrite SignRequest_signed by done. simpl. repeat split.
    intros key H1 H2. by rewrite !lookup_insert_ne.
Qed.

(** X15: signing again at the same instant changes nothing: earlier values of
    the two headers are replaced, not kept, and the signature does not
    depend on the headers of the request. *)
Theorem SignRequest_idempotent
    (tm : TokenManager) (now : Time) (req : Request) (body : string) :
  SignRequest tm now (SignRequest tm now req body).1 body = SignRequest tm now req body.
Proof.
  destruct (decide (HMACSecret (config tm) = "")) as [He|Hs].
  - unfold SignRequest. by rewrite !decide_True.
  - rewrite !SignRequest_signed by done. simpl. f_equal.
    unfold signedMessage. simpl. f_equal.
    apply map_eq. intros key. rewrite !lookup_insert. by repeat case_decide.
Qed.

(** X16: a signature that [ValidateHMACSignature] accepts has 64 bytes, each
    a decimal digit or a letter from [a] to [f]: no signature in upper-case
    hexadecimal, and none of another length, is accepted. *)
Theorem accepted_signature_shape (message signature secret : string) :
  ValidateHMACSignature message signature secret = true →
  String.length signature = 64%nat ∧ all_bytes is_lower_hex signature = true.
Proof.
  intros ->%ValidateHMACSignature_true.
  split; [apply computeHMAC256_length|apply EncodeToString_lower].
Qed.

(** X16, witness: the signature of RFC 4231, test case 2. *)
Lemma accepted_signature_shape_witness :
  String.length "5bdcc146bf60754e6a042426089575c75a003f089d2739839dec58b964ec3843" = 64%nat
  ∧ all_bytes is_lower_hex
      "5bdcc146bf60754e6a042426089575c75a003f089d2739839dec58b964ec3843" = true.
Proof.
  apply (accepted_signature_shape "what do ya want for nothing?" _ "Jefe").
  by vm_compute.
Defined.

(** X17: the signed message is read in one way only: two requests whose
    methods and URLs have no line feed and whose signed messages are equal
    have the same method, URL, time stamp and body. *)
Theorem signed_message_unambiguous
    (now now' : Time) (req req' : Request) (body body' : string) :
  Contains (Method req) newline = false → Contains (URL req) newline = false →
  Contains (Method req') newline = false → Contains (URL req') newline = false →
  signedMessage now req body = signedMessage now' req' body' →
  Method req = Method req' ∧ URL req = URL req'
  ∧ FormatRFC3339 now = FormatRFC3339 now' ∧ body = body'.
Proof.
  intros Hm Hu Hm' Hu' Heq. unfold signedMessage, newline in Heq.
  apply cut_unique in Heq as [-> Heq]; [|done..].
  apply cut_unique in Heq as [-> Heq]; [|done..].
  apply cut_unique in Heq as [-> ->]; [done|apply FormatRFC3339_no_newline..].
Qed.

(** X17, witness: the sample request against itself. *)
Lemma signed_message_unambiguous_witness :
  Method sampleRequest = Method sampleRequest ∧ URL sampleRequest = URL sampleRequest
  ∧ FormatRFC3339 sampleTime = FormatRFC3339 sampleTime ∧ "{}" = "{}".
Proof.
  apply (signed_message_unambiguous sampleTime sampleTime sampleRequest sampleRequest);
    reflexivity.
Defined.

(** ** The excluded namespaces *)

Section ExcludedNamespaces.

Variables TrimFunc_IsSpace TrimRightFunc_IsSpace : string → string.

Local Abbreviation trim := (TrimSpace TrimFunc_IsSpace TrimRightFunc_IsSpace).
Local Abbreviation exclude := (excludeNamespace TrimFunc_IsSpace TrimRightFunc_IsSpace).

(** A name written without spaces around it is left as it is. *)
Lemma TrimSpace_name ns : is_name ns = true → trim ns = ns.
Proof.
  unfold is_name. intros [_ H]%andb_true_iff.
  destruct ns as [|a rest]; [done|].
  destruct (String.rev (String a rest)) as [|b r] eqn:Hrev; [done|].
  apply andb_true_iff in H as [[Ha Hsa%negb_true_iff]%andb_true_iff
                                 [Hb Hsb%negb_true_iff]%andb_true_iff].
  apply Z.ltb_lt in Ha, Hb.
  unfold TrimSpace, RuneSelf. simpl. unfold RuneSelf, asciiSpace.
  rewrite (proj2 (Z.leb_gt _ _) Ha), Hsa, Hrev. simpl. unfold RuneSelf, asciiSpace.
  rewrite (proj2 (Z.leb_gt _ _) Hb), Hsb, <- Hrev. apply rev_rev.
Qed.

(** The map after the loop over [pieces], started from [acc]. *)
Lemma excludeNamespace_fold (pieces : list string) (acc : gmap string bool) ns :
  fold_left exclude pieces acc !! ns =
    if decide (ns ≠ "" ∧ ns ∈ (trim <$> pieces)) then Some true else acc !! ns.
Proof.
  revert acc. induction pieces as [|p pieces IH]; intros acc; simpl.
  - rewrite decide_False; [done|]. intros [_ H]. inversion H.
  - rewrite IH. unfold excludeNamespace.
    destruct (decide (ns ≠ "" ∧ ns ∈ trim <$> pieces)) as [[H1 H2]|Hn].
    + rewrite decide_True; [done|]. split; [done|]. by right.
    + destruct (decide (trim p = "")) as [Hp|Hp].
      * rewrite decide_False; [done|]. intros [H1 H2]. rewrite Hp in H2.
        inversion H2; subst; [done|]. by apply Hn.
      * destruct (decide (trim p = ns)) as [<-|Hne].
        { rewrite lookup_insert_eq, decide_True; [done|]. split; [done|]. by left. }
        rewrite lookup_insert_ne by done.
        rewrite decide_False; [done|]. intros [H1 H2].
        inversion H2; subst; [done|]. by apply Hn.
Qed.

End ExcludedNamespaces.

(** X18: after the loop of [main], a namespace is in [excludedNS] exactly when
    it is not empty and is what [TrimSpace] leaves of one of the
    comma-separated pieces of the flag; it is then mapped to [true], no
    namespace is mapped to [false], and the empty name is never excluded. *)
Theorem excluded_namespace_iff
    (TrimFunc_IsSpace TrimRightFunc_IsSpace : string → string) (flag ns : string) :
  (excludedNS TrimFunc_IsSpace TrimRightFunc_IsSpace flag !! ns = Some true
   ↔ ns ≠ "" ∧ ∃ piece, piece ∈ Split flag ","
                ∧ TrimSpace TrimFunc_IsSpace TrimRightFunc_IsSpace piece = ns)
  ∧ excludedNS TrimFunc_IsSpace TrimRightFunc_IsSpace flag !! ns ≠ Some false
  ∧ excludedNS TrimFunc_IsSpace TrimRightFunc_IsSpace flag !! "" = None.
Proof.
  unfold excludedNS. rewrite !excludeNamespace_fold, lookup_empty.
  split; [|split].
  - case_decide as H; [|split; [done|]].
    + split; [intros _|done]. destruct H as [H1 H2]. split; [done|].
      apply list_elem_of_fmap in H2 as (piece & -> & Hp). eauto.
    + intros [H1 (piece & Hp & <-)]. exfalso. apply H. split; [done|].
      apply list_elem_of_fmap. eauto.
  - by case_decide.
  - rewrite decide_False; [done|]. by intros [? _].
Qed.

(** X19: writing names with commas between them and reading the flag back
    gives the names: for names with no comma whose first and last bytes are
    ASCII and not spaces, the namespaces excluded for the flag
    [strings.Join(names, ",")] are exactly the names. *)
Theorem excluded_namespaces_round_trip
    (TrimFunc_IsSpace TrimRightFunc_IsSpace : string → string)
    (names : list string) (ns : string) :
  Forall (λ name, is_name name = true) names →
  excludedNS TrimFunc_IsSpace TrimRightFunc_IsSpace (Join names ",") !! ns
  = if decide (ns ∈ names) then Some true else None.
Proof.
  intros Hnames. unfold excludedNS. rewrite excludeNamespace_fold, lookup_empty.
  destruct names as [|name names].
  { change (Split (Join [] ",") ",") with [""].
    change (TrimSpace TrimFunc_IsSpace TrimRightFunc_IsSpace <$> [""]) with [""].
    destruct (decide (ns ∈ [])) as [Hin|_]; [inversion Hin|].
    rewrite decide_False; [done|].
    intros [H1 H2]. apply H1. by apply list_elem_of_singleton in H2. }
  rewrite Split_Join; [|done|].
  2:{ eapply Forall_impl; [done|]. intros n Hn. unfold is_name in Hn.
      by apply andb_true_iff in Hn as [Hn%negb_true_iff _]. }
  assert (TrimSpace TrimFunc_IsSpace TrimRightFunc_IsSpace <$> (name :: names)
          = name :: names) as ->.
  { rewrite <- (list_fmap_id (name :: names)) at 2. apply Forall_fmap_ext_1.
    eapply Forall_impl; [done|]. intros n Hn. by apply TrimSpace_name. }
  destruct (decide (ns ∈ name :: names)) as [Hin|Hnot].
  - rewrite decide_True; [done|]. split; [|done]. intros ->.
    pose proof (proj1 (Forall_forall _ _) Hnames "" Hin) as H. done.
  - rewrite decide_False; [done|]. by intros [_ ?].
Qed.

(** X19, witness: the default value of the flag. *)
Lemma excluded_namespaces_round_trip_witness :
  excludedNS id id "kube-system,kube-public,cert-manager" !! "kube-public"
  = if decide ("kube-public" ∈ ["kube-system"; "kube-public"; "cert-manager"])
    then Some true else None.
Proof.
  apply (excluded_namespaces_round_trip id id
           ["kube-system"; "kube-public"; "cert-manager"] "kube-public").
  by repeat constructor.
Defined.

(** X20: [normalizeHostname] removes one leading ["https://"] and then one
    leading ["http://"], in this order and nothing else: the hostname is its
    normalized form behind one of four prefixes; ["https://http://"] before
    a hostname is removed whole, of ["http://https://"] only the first
    scheme. *)
Theorem normalizeHostname_strips_schemes (h : string) :
  (h = normalizeHostname h
   ∨ h = "https://" +:+ normalizeHostname h
   ∨ h = "http://" +:+ normalizeHostname h
   ∨ h = "https://http://" +:+ normalizeHostname h)
  ∧ normalizeHostname ("https://http://" +:+ h) = h
  ∧ normalizeHostname ("http://https://" +:+ h) = "https://" +:+ h.
Proof.
  split; [|split].
  - unfold normalizeHostname.
    destruct (HasPrefix h "https://") eqn:H1.
    + apply HasPrefix_true in H1 as [b ->]. rewrite TrimPrefix_app.
      destruct (HasPrefix b "http://") eqn:H2.
      * apply HasPrefix_true in H2 as [b' ->]. rewrite TrimPrefix_app.
        by right; right; right.
      * rewrite TrimPrefix_id by done. by right; left.
    + rewrite (TrimPrefix_id h "https://") by done.
      destruct (HasPrefix h "http://") eqn:H2.
      * apply HasPrefix_true in H2 as [b ->]. rewrite TrimPrefix_app.
        by right; right; left.
      * rewrite TrimPrefix_id by done. by left.
  - change ("https://http://" +:+ h) with ("https://" +:+ "http://" +:+ h).
    unfold normalizeHostname. by rewrite !TrimPrefix_app.
  - change ("http://https://" +:+ h) with ("http://" +:+ "https://" +:+ h).
    apply normalizeHostname_http.
Qed.
